(** * The JNI boundary adapter of rulestone (java/src/main/c/wrapper.c)

    A shallow embedding of the three entry points of [wrapper.c] and of the
    two memories they work on: the C heap shared with the native rule
    engine (blocks obtained from [malloc], released with [free]) and the
    host heap of the Java virtual machine reached through the [JNIEnv]
    function table. *)

From stdpp Require Import gmap strings list fin_maps.
From Stdlib Require Import ZArith Ascii.

Local Open Scope Z_scope.

(** ** C integers and C strings *)

(** Value of an [int] expression on an implementation that wraps around.
    C leaves signed overflow undefined; the loop below is only reasoned
    about for counts up to [2 ^ 30], where [i * 2 + 1] stays within [int]
    and [wrap32] changes nothing (lemma [wrap32_id]). *)
Definition wrap32 (z : Z) : Z := (z + 2 ^ 31) mod 2 ^ 32 - 2 ^ 31.

Definition NULL : Z := 0.

(** The characters of the NUL-terminated string that starts a byte
    buffer; [None] when the buffer holds no terminator. *)
Fixpoint c_str (bytes : string) : option string :=
  match bytes with
  | EmptyString => None
  | String c rest =>
      if Ascii.eqb c Ascii.zero then Some EmptyString
      else String c <$> c_str rest
  end.

(** What [C.CString] lays out for a string: its bytes and a terminator. *)
Definition c_bytes (s : string) : string :=
  (s ++ String Ascii.zero EmptyString)%string.

(** ** The C heap *)

(** Modelled from the spec: the struct types [Matches] and [Metadata] are
    declared in the generated header [librulestone-go.h], which is not part
    of the sources. The fields are the ones [wrapper.c] reads
    ([matches->len], [matches->matches], [metadata->size],
    [metadata->metadata[i]]): a match set is a header holding a count and a
    pointer to a buffer of rule identifiers, metadata is a header holding a
    pair count and a pointer to a flat array of [2 * size] string
    pointers. *)
Inductive block :=
  | BMatches (len : Z) (matches : Z)
  | BInts (xs : list Z)
  | BMetadata (size : Z) (metadata : Z)
  | BPtrs (ps : list Z)
  | BChars (bytes : string).

#[global] Instance block_eq_dec : EqDecision block.
Proof. solve_decision. Defined.

(** ** Host values and host objects *)

(** A JNI reference: [NULL], an immutable [java.lang.String] (by value,
    as its modified UTF-8 bytes), or a reference to a mutable object of
    the host heap. *)
Inductive jobject :=
  | JNull
  | JStr (s : string)
  | JRef (r : N).

#[global] Instance jobject_eq_dec : EqDecision jobject.
Proof. solve_decision. Defined.

#[global] Instance jobject_countable : Countable jobject.
Proof.
  refine (inj_countable'
            (λ o, match o with
                  | JNull => inl ()
                  | JStr s => inr (inl s)
                  | JRef r => inr (inr r)
                  end)
            (λ x, match x with
                  | inl _ => JNull
                  | inr (inl s) => JStr s
                  | inr (inr r) => JRef r
                  end) _).
  by intros [].
Defined.

Inductive jobj :=
  | JIntArray (xs : list Z)
  | JHashMap (m : gmap jobject jobject)
  | JRuleMetadata (map : jobject).

Record jmethodID := MethodID {
  m_class : string;
  m_name : string;
  m_sig : string
}.

#[global] Instance jmethodID_eq_dec : EqDecision jmethodID.
Proof. solve_decision. Defined.

(** ** Observable actions of the adapter *)

Inductive event :=
  | EvGetStringUTFChars (jstr : jobject)
  | EvReleaseStringUTFChars (jstr : jobject)
  | EvNewIntArray (len : Z)
  | EvSetIntArrayRegion (arr : jobject) (start len buf : Z)
  | EvNewObject (cls : string)
  | EvNewStringUTF (p : Z)
  | EvCallObjectMethod (obj : jobject) (mid : jmethodID)
  | EvFree (p : Z)
  | EvNativeCall (name : string).

#[global] Instance event_eq_dec : EqDecision event.
Proof. solve_decision. Defined.

(** ** Machine state

    [engine] is the private state of the native engine, [heap] the live
    blocks of the C heap. [jheap] holds the host objects, [views] counts
    the string views handed out by [GetStringUTFChars] and not yet
    released, [oracle] decides which of the coming host allocations fail
    ([false]; an exhausted oracle lets every allocation succeed), and
    [pending] records that a host exception has been raised. *)
Record state (E : Type) := State {
  engine : E;
  heap : gmap Z block;
  jheap : gmap N jobj;
  views : nat;
  oracle : list bool;
  pending : bool;
  trace : list event
}.

Arguments State {E}.
Arguments engine {E}.
Arguments heap {E}.
Arguments jheap {E}.
Arguments views {E}.
Arguments oracle {E}.
Arguments pending {E}.
Arguments trace {E}.

Inductive fault :=
  | SegFault
  | InvalidFree
  | JniMisuse
  | OutOfFuel.

Inductive outcome (E A : Type) :=
  | Ok (a : A) (st : state E)
  | Fault (f : fault) (st : state E).

Arguments Ok {E A}.
Arguments Fault {E A}.

Definition M (E A : Type) : Type := state E → outcome E A.

Definition ret {E A} (a : A) : M E A := λ st, Ok a st.

Definition bind {E A B} (k : A → M E B) (m : M E A) : M E B :=
  λ st, match m st with
        | Ok a st' => k a st'
        | Fault f st' => Fault f st'
        end.

#[global] Instance M_ret {E} : MRet (M E) := @ret E.
#[global] Instance M_bind {E} : MBind (M E) := @bind E.

Definition crash {E A} (f : fault) : M E A := λ st, Fault f st.

(** A primitive step given directly as a function of the state. *)
Definition step {E A} (f : state E → outcome E A) : M E A := f.

Definition emit {E} (e : event) : M E unit :=
  λ st, Ok tt (State (engine st) (heap st) (jheap st) (views st)
                 (oracle st) (pending st) (trace st ++ [e])).

Definition set_heap {E} (h : gmap Z block) (st : state E) : state E :=
  State (engine st) h (jheap st) (views st) (oracle st) (pending st) (trace st).

Definition set_jheap {E} (j : gmap N jobj) (st : state E) : state E :=
  State (engine st) (heap st) j (views st) (oracle st) (pending st) (trace st).

Definition set_views {E} (v : nat) (st : state E) : state E :=
  State (engine st) (heap st) (jheap st) v (oracle st) (pending st) (trace st).

(** ** The C side: loads through pointers and [free] *)

Definition load {E} (p : Z) : M E block :=
  λ st, if decide (p = NULL) then Fault SegFault st
        else match heap st !! p with
             | Some b => Ok b st
             | None => Fault SegFault st
             end.

(** [matches->len] *)
Definition matches_len {E} (matches : Z) : M E Z :=
  b ← load matches;
  match b with BMatches len _ => ret len | _ => crash SegFault end.

(** [matches->matches] *)
Definition matches_matches {E} (matches : Z) : M E Z :=
  b ← load matches;
  match b with BMatches _ buf => ret buf | _ => crash SegFault end.

(** [metadata->size] *)
Definition metadata_size {E} (metadata : Z) : M E Z :=
  b ← load metadata;
  match b with BMetadata size _ => ret size | _ => crash SegFault end.

(** [metadata->metadata] *)
Definition metadata_metadata {E} (metadata : Z) : M E Z :=
  b ← load metadata;
  match b with BMetadata _ arr => ret arr | _ => crash SegFault end.

Definition index {A} (l : list A) (k : Z) : option A :=
  if decide (0 ≤ k) then l !! Z.to_nat k else None.

(** [metadata->metadata[k]] *)
Definition metadata_at {E} (metadata k : Z) : M E Z :=
  arr ← metadata_metadata metadata;
  b ← load arr;
  match b with
  | BPtrs ps =>
      match index ps k with
      | Some q => ret q
      | None => crash SegFault
      end
  | _ => crash SegFault
  end.

(** [free(p)]: nothing for a null pointer, releases a live block, and is
    undefined (a fault here) on anything else, a second [free] of the same
    block included. *)
Definition free {E} (p : Z) : M E unit :=
  emit (EvFree p);;
  step (λ st,
    if decide (p = NULL) then Ok tt st
    else match heap st !! p with
         | Some _ => Ok tt (set_heap (delete p (heap st)) st)
         | None => Fault InvalidFree st
         end).

(** ** The host side: the functions of [JNIEnv] the adapter calls

    These functions belong to the virtual machine. They are given the
    behaviour the JNI specification describes, as far as the adapter uses
    it: an allocating function returns [NULL] and raises an exception
    when the host cannot allocate, and the native code goes on running;
    handing a null or ill-typed reference to a function that needs an
    object is undefined, a fault here. A host string is given by its
    modified UTF-8 bytes: [NewStringUTF] builds the host string of the
    bytes of a C string and [GetStringUTFChars] yields the bytes of a
    host string; which characters the bytes stand for is defined further
    down ([host_units]). Class and method lookups always succeed. *)

(** Raises a host exception; the native code keeps running. *)
Definition throw {E} : M E unit :=
  λ st, Ok tt (State (engine st) (heap st) (jheap st) (views st)
                 (oracle st) true (trace st)).

(** The next answer of the oracle and what is left of it. *)
Definition pop (o : list bool) : bool * list bool :=
  match o with
  | [] => (true, [])
  | b :: o' => (b, o')
  end.

(** Outcome of the next host allocation; a failed one raises a host
    exception. *)
Definition host_alloc_ok {E} : M E bool :=
  λ st, Ok (pop (oracle st)).1
           (State (engine st) (heap st) (jheap st) (views st)
              (pop (oracle st)).2
              (pending st || negb (pop (oracle st)).1) (trace st)).

Definition new_host_object {E} (o : jobj) : M E jobject :=
  ok ← host_alloc_ok;
  if ok : bool then
    step (λ st, let r := fresh (dom (jheap st)) in
                Ok (JRef r) (set_jheap (<[r := o]> (jheap st)) st))
  else ret JNull.

(** A temporary native-readable view of a host string, [NULL] when the
    host cannot provide one. *)
Definition GetStringUTFChars {E} (jstr : jobject) : M E (option string) :=
  emit (EvGetStringUTFChars jstr);;
  match jstr with
  | JStr s =>
      ok ← host_alloc_ok;
      if ok : bool
      then step (λ st, Ok (Some s) (set_views (S (views st)) st))
      else ret None
  | _ => crash JniMisuse
  end.

Definition ReleaseStringUTFChars {E} (jstr : jobject) (chars : option string)
  : M E unit :=
  emit (EvReleaseStringUTFChars jstr);;
  match chars with
  | None => ret tt
  | Some _ =>
      step (λ st, match views st with
                  | O => Fault JniMisuse st
                  | S v => Ok tt (set_views v st)
                  end)
  end.

Definition NewIntArray {E} (len : Z) : M E jobject :=
  emit (EvNewIntArray len);;
  if decide (len < 0) then throw;; ret JNull
  else new_host_object (JIntArray (replicate (Z.to_nat len) 0)).

(** Overwrites [xs] from position [start] on with the elements of [ys]. *)
Definition blit (xs : list Z) (start : nat) (ys : list Z) : list Z :=
  take start xs ++ ys ++ drop (start + length ys)%nat xs.

Definition host_load {E} (r : N) : M E jobj :=
  λ st, match jheap st !! r with
        | Some o => Ok o st
        | None => Fault JniMisuse st
        end.

Definition host_store {E} (r : N) (o : jobj) : M E unit :=
  λ st, Ok tt (set_jheap (<[r := o]> (jheap st)) st).

(** Copies [len] integers from the native buffer [buf] into the host
    array; a region outside the array raises a host exception, and an
    empty region reads nothing. *)
Definition SetIntArrayRegion {E} (arr : jobject) (start len buf : Z)
  : M E unit :=
  emit (EvSetIntArrayRegion arr start len buf);;
  match arr with
  | JRef r =>
      o ← host_load r;
      match o with
      | JIntArray xs =>
          if decide (start < 0 ∨ len < 0 ∨ Z.of_nat (length xs) < start + len)
          then throw
          else if decide (len = 0) then ret tt
          else
            b ← load buf;
            match b with
            | BInts ys =>
                if decide (len ≤ Z.of_nat (length ys)) then
                  host_store r
                    (JIntArray (blit xs (Z.to_nat start)
                                  (take (Z.to_nat len) ys)))
                else crash SegFault
            | _ => crash SegFault
            end
      | _ => crash JniMisuse
      end
  | _ => crash JniMisuse
  end.

Definition FindClass (name : string) : string := name.

Definition GetMethodID (cls name sig : string) : jmethodID :=
  MethodID cls name sig.

Definition HashMap_class : string := "java/util/HashMap".
Definition RuleMetadata_class : string :=
  "com/atlasgurus/rulestone/RuleMetadata".

Definition NewObject {E} (cls : string) (ctor : jmethodID)
    (args : list jobject) : M E jobject :=
  emit (EvNewObject cls);;
  if decide (ctor = MethodID HashMap_class "<init>" "()V"
             ∧ cls = HashMap_class)
  then
    match args with
    | [] => new_host_object (JHashMap ∅)
    | _ => crash JniMisuse
    end
  else if decide (ctor = MethodID RuleMetadata_class "<init>"
                           "(Ljava/util/Map;)V"
                  ∧ cls = RuleMetadata_class)
  then
    match args with
    | [map] => new_host_object (JRuleMetadata map)
    | _ => crash JniMisuse
    end
  else crash JniMisuse.

(** Reads the C string at [p] and builds a host string from it; [NULL]
    with a pending exception when the host cannot allocate it. *)
Definition NewStringUTF {E} (p : Z) : M E jobject :=
  emit (EvNewStringUTF p);;
  b ← load p;
  match b with
  | BChars bytes =>
      match c_str bytes with
      | Some s =>
          ok ← host_alloc_ok;
          if ok : bool then ret (JStr s) else ret JNull
      | None => crash SegFault
      end
  | _ => crash SegFault
  end.

Definition HashMap_put : jmethodID :=
  MethodID HashMap_class "put"
    "(Ljava/lang/Object;Ljava/lang/Object;)Ljava/lang/Object;".

(** The only method the adapter calls is [HashMap.put]; it returns the
    value the key was bound to before. *)
Definition CallObjectMethod {E} (obj : jobject) (mid : jmethodID)
    (args : list jobject) : M E jobject :=
  emit (EvCallObjectMethod obj mid);;
  match obj with
  | JRef r =>
      o ← host_load r;
      match o, args with
      | JHashMap m, [key; value] =>
          if decide (mid = HashMap_put) then
            ok ← host_alloc_ok;
            if ok : bool then
              host_store r (JHashMap (<[key := value]> m));;
              ret (default JNull (m !! key))
            else ret JNull
          else crash JniMisuse
      | _, _ => crash JniMisuse
      end
  | _ => crash JniMisuse
  end.

(** ** The native engine

    The primitives exported by the engine library. Each one runs on the
    engine's private state and on the C heap, where it allocates what it
    returns. *)
Class NativeEngine (E : Type) := {
  NewRuleEngine : option string → E * gmap Z block → Z * (E * gmap Z block);
  Match : Z → option string → E * gmap Z block → Z * (E * gmap Z block);
  GetRuleMetadata : Z → Z → E * gmap Z block → Z * (E * gmap Z block)
}.

Definition call_native {E A} (name : string)
    (f : E * gmap Z block → A * (E * gmap Z block)) : M E A :=
  λ st, let '(a, (e, h)) := f (engine st, heap st) in
        Ok a (State e h (jheap st) (views st) (oracle st) (pending st)
                (trace st ++ [EvNativeCall name])).

(** ** The entry points of wrapper.c *)

Section Adapter.
Context {E : Type} `{NativeEngine E}.

Definition Java_com_atlasgurus_rulestone_Rulestone_NewRuleEngine
    (jstr : jobject) : M E Z :=
  rules_path ← GetStringUTFChars jstr;
  rule_engine_id ← call_native "NewRuleEngine" (NewRuleEngine rules_path);
  ReleaseStringUTFChars jstr rules_path;;
  ret rule_engine_id.

Definition Java_com_atlasgurus_rulestone_Rulestone_Match
    (rule_engine_id : Z) (jstr : jobject) : M E jobject :=
  input ← GetStringUTFChars jstr;
  matches ← call_native "Match" (Match rule_engine_id input);
  len ← matches_len matches;
  result ← NewIntArray len;
  len' ← matches_len matches;
  buf ← matches_matches matches;
  SetIntArrayRegion result 0 len' buf;;
  buf' ← matches_matches matches;
  free buf';;
  free matches;;
  ReleaseStringUTFChars jstr input;;
  ret result.

(** The loop of [GetRuleMetadata], entered at index [i]; every round
    evaluates [i < metadata->size] anew. *)
Fixpoint metadata_loop (fuel : nat) (metadata : Z) (hashMap : jobject)
    (hashMapPut : jmethodID) (i : Z) : M E unit :=
  size ← metadata_size metadata;
  if decide (i < size) then
    match fuel with
    | O => crash OutOfFuel
    | S fuel' =>
        kp ← metadata_at metadata (wrap32 (i * 2));
        key ← NewStringUTF kp;
        vp ← metadata_at metadata (wrap32 (wrap32 (i * 2) + 1));
        value ← NewStringUTF vp;
        CallObjectMethod hashMap hashMapPut [key; value];;
        kp' ← metadata_at metadata (wrap32 (i * 2));
        free kp';;
        vp' ← metadata_at metadata (wrap32 (wrap32 (i * 2) + 1));
        free vp';;
        metadata_loop fuel' metadata hashMap hashMapPut (wrap32 (i + 1))
    end
  else ret tt.

(** [fuel] bounds the number of rounds of the loop; [size] rounds are
    enough (lemma [metadata_loop_run]). *)
Definition Java_com_atlasgurus_rulestone_Rulestone_GetRuleMetadata
    (fuel : nat) (rule_engine_id rule_id : Z) : M E jobject :=
  metadata ← call_native "GetRuleMetadata"
                (GetRuleMetadata rule_engine_id rule_id);
  if decide (metadata = NULL) then ret JNull
  else
    let ruleMetadataClass := FindClass RuleMetadata_class in
    let constructor :=
      GetMethodID ruleMetadataClass "<init>" "(Ljava/util/Map;)V" in
    let hashMapClass := FindClass HashMap_class in
    let hashMapConstructor := GetMethodID hashMapClass "<init>" "()V" in
    hashMap ← NewObject hashMapClass hashMapConstructor [];
    let hashMapPut :=
      GetMethodID hashMapClass "put"
        "(Ljava/lang/Object;Ljava/lang/Object;)Ljava/lang/Object;" in
    metadata_loop fuel metadata hashMap hashMapPut 0;;
    arr ← metadata_metadata metadata;
    free arr;;
    NewObject ruleMetadataClass constructor [hashMap].

End Adapter.

(** ** Characters of native and of host strings

    The native engine hands out UTF-8 strings, and [NewStringUTF] reads
    its argument as modified UTF-8, the encoding of the JNI specification:
    one byte for U+0001 to U+007F, two bytes for U+0080 to U+07FF and for
    U+0000, three bytes for the other UTF-16 code units, and no four-byte
    form. A host string [JStr s] is given by the bytes [s] it was built
    from, which are also what [GetStringUTFChars] yields; its UTF-16 code
    units are [host_units], defined when [s] is modified UTF-8. *)










(** ** What the host sees of a result *)

Definition int_array_view {E} (st : state E) (o : jobject) : option (list Z) :=
  match o with
  | JRef r =>
      match jheap st !! r with
      | Some (JIntArray xs) => Some xs
      | _ => None
      end
  | _ => None
  end.

Definition metadata_view {E} (st : state E) (o : jobject)
  : option (gmap jobject jobject) :=
  match o with
  | JRef r =>
      match jheap st !! r with
      | Some (JRuleMetadata (JRef r0)) =>
          match jheap st !! r0 with
          | Some (JHashMap m) => Some m
          | _ => None
          end
      | _ => None
      end
  | _ => None
  end.

(** What [GetStringUTFChars] hands to the native code in state [st]: the
    characters of the host string, or the null pointer when the host
    cannot provide the view. *)
Definition view_of {E} (st : state E) (s : string) : option string :=
  if (pop (oracle st)).1 then Some s else None.

(** The second host allocation of a match call, the one of the integer
    array, succeeds. *)
Definition array_allocated {E} (st : state E) : Prop :=
  (pop (pop (oracle st)).2).1 = true.

(** The pointers passed to [free], in the order of the calls. *)
Definition frees (tr : list event) : list Z :=
  omap (λ e, match e with EvFree p => Some p | _ => None end) tr.

(** ** Well-formed native results *)

(** [free] seen on the heap alone. *)
Definition release (p : Z) (h : gmap Z block) : gmap Z block :=
  if decide (p = NULL) then h else delete p h.

Definition free_all (ps : list Z) (h : gmap Z block) : gmap Z block :=
  foldl (λ h p, delete p h) h ps.

(** A match set of count [n] at [p]: a header and a buffer holding the
    identifiers [xs]; an empty set may come without a buffer. *)
Definition wf_matches (h : gmap Z block) (p n buf : Z) (xs : list Z) : Prop :=
  p ≠ NULL ∧ h !! p = Some (BMatches n buf) ∧ Z.of_nat (length xs) = n ∧
  buf ≠ p ∧
  if decide (buf = NULL) then xs = [] else h !! buf = Some (BInts xs).

Definition c_str_at (h : gmap Z block) (q : Z) : option string :=
  if decide (q = NULL) then None
  else match h !! q with
       | Some (BChars bytes) => c_str bytes
       | _ => None
       end.

(** The strings a flat array of pointers denotes, pair by pair. *)
Fixpoint read_pairs (h : gmap Z block) (ps : list Z)
  : option (list (string * string)) :=
  match ps with
  | [] => Some []
  | kp :: vp :: rest =>
      k ← c_str_at h kp;
      v ← c_str_at h vp;
      kvs ← read_pairs h rest;
      Some ((k, v) :: kvs)
  | _ => None
  end.

(** Metadata of [size] pairs at [p]: a header, the flat array [ps] of
    string pointers and the strings, all of them distinct live blocks;
    [size] is small enough for the index arithmetic of the loop to stay
    within [int]. *)
Definition wf_metadata (h : gmap Z block) (p size arr : Z) (ps : list Z)
    (kvs : list (string * string)) : Prop :=
  p ≠ NULL ∧ h !! p = Some (BMetadata size arr) ∧
  arr ≠ NULL ∧ h !! arr = Some (BPtrs ps) ∧
  read_pairs h ps = Some kvs ∧
  Z.of_nat (length kvs) = size ∧ size ≤ 2 ^ 30 ∧
  NoDup (p :: arr :: ps).

(** Key and value of pair [i] of a flat array: the strings at the
    indices [2 * i] and [2 * i + 1]. *)
Definition native_key (h : gmap Z block) (ps : list Z) (i : nat)
  : option string :=
  ps !! (2 * i)%nat ≫= c_str_at h.

Definition native_value (h : gmap Z block) (ps : list Z) (i : nat)
  : option string :=
  ps !! (2 * i + 1)%nat ≫= c_str_at h.

(** Number of native allocations not yet released. *)
Definition outstanding {E} (st : state E) : nat := size (heap st).

(** The run returned, with a result and a final state satisfying [P]. *)
Definition returns {E A} (o : outcome E A) (P : A → state E → Prop) : Prop :=
  match o with
  | Ok a st => P a st
  | Fault _ _ => False
  end.

(** ** The effect of the metadata loop on the host, as a function *)

Definition put_step (kv : string * string)
    (hs : gmap jobject jobject * list bool * bool)
  : gmap jobject jobject * list bool * bool :=
  let '(m, o, pd) := hs in
  let '(b1, o1) := pop o in
  let '(b2, o2) := pop o1 in
  let '(b3, o3) := pop o2 in
  let key := if b1 then JStr kv.1 else JNull in
  let value := if b2 then JStr kv.2 else JNull in
  (if b3 then <[key := value]> m else m, o3,
   pd || negb b1 || negb b2 || negb b3).

Definition put_pairs (kvs : list (string * string))
    (hs : gmap jobject jobject * list bool * bool)
  : gmap jobject jobject * list bool * bool :=
  foldl (λ hs kv, put_step kv hs) hs kvs.

(** Inserting the pairs one after the other when nothing fails. *)
Definition insert_pairs (kvs : list (string * string))
    (m : gmap jobject jobject) : gmap jobject jobject :=
  foldl (λ m kv, <[JStr kv.1 := JStr kv.2]> m) m kvs.

Fixpoint loop_events (hashMap : jobject) (ps : list Z) : list event :=
  match ps with
  | kp :: vp :: rest =>
      [EvNewStringUTF kp; EvNewStringUTF vp;
       EvCallObjectMethod hashMap HashMap_put; EvFree kp; EvFree vp]
      ++ loop_events hashMap rest
  | _ => []
  end.

(** ** A native engine to run the adapter against

    The engine state is the number of engines created. Every engine knows
    rule 7, annotated severity=high, and rule 8, which has no annotation;
    an input matches rule 7 when it is the text "trigger". A handle that
    names no engine gets the null pointer from both queries, and creation
    fails with -1 when no path is given. *)

Definition malloc (b : block) (h : gmap Z block) : Z * gmap Z block :=
  let p := fresh ({[NULL]} ∪ dom h) in (p, <[p := b]> h).

Definition double_NewRuleEngine (path : option string)
    (s : nat * gmap Z block) : Z * (nat * gmap Z block) :=
  match path with
  | Some _ => (Z.of_nat s.1, (S s.1, s.2))
  | None => (-1, s)
  end.

Definition double_Match (id : Z) (input : option string)
    (s : nat * gmap Z block) : Z * (nat * gmap Z block) :=
  if decide (0 ≤ id < Z.of_nat s.1) then
    let xs := if decide (input = Some "trigger") then [7] else [] in
    let '(buf, h1) := malloc (BInts xs) s.2 in
    let '(p, h2) := malloc (BMatches (Z.of_nat (length xs)) buf) h1 in
    (p, (s.1, h2))
  else (NULL, s).

Fixpoint malloc_strings (l : list string) (h : gmap Z block)
  : list Z * gmap Z block :=
  match l with
  | [] => ([], h)
  | s :: l' =>
      let '(q, h1) := malloc (BChars (c_bytes s)) h in
      let '(qs, h2) := malloc_strings l' h1 in
      (q :: qs, h2)
  end.

Definition double_metadata (strs : list string) (size : Z)
    (s : nat * gmap Z block) : Z * (nat * gmap Z block) :=
  let '(ps, h1) := malloc_strings strs s.2 in
  let '(arr, h2) := malloc (BPtrs ps) h1 in
  let '(p, h3) := malloc (BMetadata size arr) h2 in
  (p, (s.1, h3)).

Definition double_GetRuleMetadata (id rule : Z)
    (s : nat * gmap Z block) : Z * (nat * gmap Z block) :=
  if decide (0 ≤ id < Z.of_nat s.1) then
    if decide (rule = 7) then double_metadata ["severity"; "high"] 1 s
    else if decide (rule = 8) then double_metadata [] 0 s
    else (NULL, s)
  else (NULL, s).

#[global] Instance double_engine : NativeEngine nat := {
  NewRuleEngine := double_NewRuleEngine;
  Match := double_Match;
  GetRuleMetadata := double_GetRuleMetadata
}.

Definition init : state nat := State O ∅ ∅ O [] false [].

(** The state once one engine has been created. *)
Definition ready : state nat := State 1%nat ∅ ∅ O [] false [].

(** The same state with a host that creates the map object and then
    fails to convert the first key. *)
Definition ready_failing : state nat :=
  State 1%nat ∅ ∅ O [true; false] false [].

(** The C heap after the engine has answered the queries used below. *)
Definition heap_match_7 : gmap Z block :=
  <[2 := BMatches 1 1]> (<[1 := BInts [7]]> ∅).

Definition heap_match_none : gmap Z block :=
  <[2 := BMatches 0 1]> (<[1 := BInts []]> ∅).

Definition heap_metadata_7 : gmap Z block :=
  <[4 := BMetadata 1 3]>
    (<[3 := BPtrs [1; 2]]>
       (<[2 := BChars (c_bytes "high")]>
          (<[1 := BChars (c_bytes "severity")]> ∅))).

Definition heap_metadata_8 : gmap Z block :=
  <[2 := BMetadata 0 1]> (<[1 := BPtrs []]> ∅).


(** More states to run the adapter on: a host that creates no object at
    all, and a host that fails at the last allocation of a metadata call
    for one pair. *)
Definition ready_no_object : state nat :=
  State 1%nat ∅ ∅ O [false] false [].

Definition ready_no_record : state nat :=
  State 1%nat ∅ ∅ O [true; true; true; true; false] false [].

(** An engine that uses one string as key and as value of the only pair
    of its metadata. *)
Definition sharing_GetRuleMetadata (id rule : Z)
    (s : unit * gmap Z block) : Z * (unit * gmap Z block) :=
  let '(q, h1) := malloc (BChars (c_bytes "x")) s.2 in
  let '(arr, h2) := malloc (BPtrs [q; q]) h1 in
  let '(p, h3) := malloc (BMetadata 1 arr) h2 in
  (p, (s.1, h3)).

#[global] Instance sharing_engine : NativeEngine unit := {
  NewRuleEngine := λ _ s, (0, s);
  Match := λ _ _ s, (NULL, s);
  GetRuleMetadata := sharing_GetRuleMetadata
}.

Definition sharing_ready : state unit := State tt ∅ ∅ O [] false [].

Definition heap_sharing : gmap Z block :=
  <[3 := BMetadata 1 2]>
    (<[2 := BPtrs [1; 1]]> (<[1 := BChars (c_bytes "x")]> ∅)).




(** ** Calls in sequence, and engines that allocate what they return *)

(** [n] calls of [c], one after the other. *)
Fixpoint repeat_calls {E A} (n : nat) (c : M E A) : M E unit :=
  match n with
  | O => ret tt
  | S n' => c;; repeat_calls n' c
  end.

Section Engines.
Context {E : Type} `{NativeEngine E}.

(** In every engine state satisfying [I] the match primitive answers
    handle [id] with a match set made of two new blocks and touches no
    other block. *)
Definition match_allocates (I : E → Prop) (id : Z) : Prop :=
  ∀ view e h, I e →
    ∃ p e1 n buf xs,
      Match id view (e, h)
      = (p, (e1, <[p := BMatches n buf]> (<[buf := BInts xs]> h))) ∧
      I e1 ∧ p ≠ NULL ∧ buf ≠ NULL ∧ p ≠ buf ∧
      h !! p = None ∧ h !! buf = None ∧ Z.of_nat (length xs) = n.

(** In every engine state satisfying [I] the metadata primitive answers
    [(id, rule)] with well-formed metadata of at most [fuel] pairs, made
    of new blocks: without them the heap is the one before the call. *)
Definition metadata_allocates (I : E → Prop) (id rule : Z) (fuel : nat)
  : Prop :=
  ∀ e h, I e →
    ∃ p e1 h1 size arr ps kvs,
      GetRuleMetadata id rule (e, h) = (p, (e1, h1)) ∧
      I e1 ∧ wf_metadata h1 p size arr ps kvs ∧
      (length kvs ≤ fuel)%nat ∧
      h !! p = None ∧ delete p (delete arr (free_all ps h1)) = h.

End Engines.

(** * Proofs *)

(** ** Arithmetic and strings *)

Lemma wrap32_id z : - 2 ^ 31 ≤ z < 2 ^ 31 → wrap32 z = z.
Proof.
  intros Hz. unfold wrap32.
  rewrite Z.mod_small by lia. lia.
Qed.






(** ** One step of each primitive *)

(** Reduces the field projections of an explicit state. *)
Ltac norm :=
  cbn [engine heap jheap views oracle pending trace
       set_heap set_jheap set_views].

Section Steps.
Context {E : Type}.
Implicit Types (st : state E) (p q : Z).

Lemma bind_run {A B} (m : M E A) (k : A → M E B) st a st' :
  m st = Ok a st' → (m ≫= k) st = k a st'.
Proof. intros Hm. unfold mbind, M_bind, bind. by rewrite Hm. Qed.

Lemma bind_fault {A B} (m : M E A) (k : A → M E B) st f st' :
  m st = Fault f st' → (m ≫= k) st = Fault f st'.
Proof. intros Hm. unfold mbind, M_bind, bind. by rewrite Hm. Qed.

Lemma load_ok st p b :
  p ≠ NULL → heap st !! p = Some b → load p st = Ok b st.
Proof. intros Hp Hb. unfold load. rewrite decide_False by done. by rewrite Hb. Qed.

Lemma load_null st : load (E:=E) NULL st = Fault SegFault st.
Proof. done. Qed.

Lemma matches_len_ok st p n buf :
  p ≠ NULL → heap st !! p = Some (BMatches n buf) →
  matches_len p st = Ok n st.
Proof. intros. unfold matches_len. by erewrite bind_run by by apply load_ok. Qed.

Lemma matches_matches_ok st p n buf :
  p ≠ NULL → heap st !! p = Some (BMatches n buf) →
  matches_matches p st = Ok buf st.
Proof. intros. unfold matches_matches. by erewrite bind_run by by apply load_ok. Qed.

Lemma metadata_size_ok st p size arr :
  p ≠ NULL → heap st !! p = Some (BMetadata size arr) →
  metadata_size p st = Ok size st.
Proof. intros. unfold metadata_size. by erewrite bind_run by by apply load_ok. Qed.

Lemma metadata_metadata_ok st p size arr :
  p ≠ NULL → heap st !! p = Some (BMetadata size arr) →
  metadata_metadata p st = Ok arr st.
Proof. intros. unfold metadata_metadata. by erewrite bind_run by by apply load_ok. Qed.

Lemma metadata_at_ok st p size arr ps k q :
  p ≠ NULL → heap st !! p = Some (BMetadata size arr) →
  arr ≠ NULL → heap st !! arr = Some (BPtrs ps) →
  index ps k = Some q →
  metadata_at p k st = Ok q st.
Proof.
  intros ? ? ? ? Hq. unfold metadata_at.
  erewrite bind_run by by eapply metadata_metadata_ok.
  erewrite bind_run by by apply load_ok.
  cbv beta iota. by rewrite Hq.
Qed.

Lemma free_ok st p b :
  p ≠ NULL → heap st !! p = Some b →
  free p st =
  Ok tt (State (engine st) (delete p (heap st)) (jheap st) (views st)
           (oracle st) (pending st) (trace st ++ [EvFree p])).
Proof.
  intros Hp Hb. unfold free.
  erewrite bind_run by reflexivity.
  unfold step. rewrite decide_False by done. cbn. by rewrite Hb.
Qed.

Lemma free_null st :
  free NULL st =
  Ok tt (State (engine st) (heap st) (jheap st) (views st)
           (oracle st) (pending st) (trace st ++ [EvFree NULL])).
Proof. done. Qed.

Lemma free_dead st p :
  p ≠ NULL → heap st !! p = None →
  ∃ st', free p st = Fault InvalidFree st'.
Proof.
  intros Hp Hb. unfold free. eexists.
  erewrite bind_run by reflexivity.
  unfold step. rewrite decide_False by done. cbn. by rewrite Hb.
Qed.

Lemma NewStringUTF_ok st q bytes s :
  q ≠ NULL → heap st !! q = Some (BChars bytes) → c_str bytes = Some s →
  NewStringUTF q st =
  Ok (if (pop (oracle st)).1 then JStr s else JNull)
     (State (engine st) (heap st) (jheap st) (views st)
        (pop (oracle st)).2 (pending st || negb (pop (oracle st)).1)
        (trace st ++ [EvNewStringUTF q])).
Proof.
  intros Hq Hb Hs. unfold NewStringUTF.
  erewrite bind_run by reflexivity.
  erewrite bind_run by by apply load_ok.
  cbv beta iota. rewrite Hs. erewrite bind_run by reflexivity.
  cbn. by destruct (pop (oracle st)).1.
Qed.

Lemma put_ok st r m key value :
  jheap st !! r = Some (JHashMap m) →
  CallObjectMethod (JRef r) HashMap_put [key; value] st =
  Ok (if (pop (oracle st)).1 then default JNull (m !! key) else JNull)
     (State (engine st) (heap st)
        (if (pop (oracle st)).1
         then <[r := JHashMap (<[key := value]> m)]> (jheap st)
         else jheap st)
        (views st) (pop (oracle st)).2
        (pending st || negb (pop (oracle st)).1)
        (trace st ++ [EvCallObjectMethod (JRef r) HashMap_put])).
Proof.
  intros Hr. unfold CallObjectMethod.
  erewrite bind_run by reflexivity.
  erewrite bind_run; [|unfold host_load; cbn; by rewrite Hr].
  cbv beta iota. rewrite decide_True by done.
  erewrite bind_run by reflexivity.
  cbn. by destruct (pop (oracle st)).1.
Qed.

Lemma new_host_object_ok st o :
  (pop (oracle st)).1 = true →
  new_host_object o st =
  Ok (JRef (fresh (dom (jheap st))))
     (State (engine st) (heap st)
        (<[fresh (dom (jheap st)) := o]> (jheap st)) (views st)
        (pop (oracle st)).2 (pending st) (trace st)).
Proof.
  intros Hok. unfold new_host_object.
  erewrite bind_run by reflexivity.
  rewrite Hok. cbn. by rewrite orb_false_r.
Qed.

Lemma new_host_object_fail st o :
  (pop (oracle st)).1 = false →
  new_host_object o st =
  Ok JNull
     (State (engine st) (heap st) (jheap st) (views st)
        (pop (oracle st)).2 true (trace st)).
Proof.
  intros Hok. unfold new_host_object.
  erewrite bind_run by reflexivity.
  rewrite Hok. cbn. by rewrite orb_true_r.
Qed.

Lemma GetStringUTFChars_ok st s :
  (pop (oracle st)).1 = true →
  GetStringUTFChars (JStr s) st =
  Ok (Some s)
     (State (engine st) (heap st) (jheap st) (S (views st))
        (pop (oracle st)).2 (pending st)
        (trace st ++ [EvGetStringUTFChars (JStr s)])).
Proof.
  intros Hok. unfold GetStringUTFChars.
  erewrite bind_run by reflexivity.
  erewrite bind_run by reflexivity. norm.
  rewrite Hok. cbn. by rewrite orb_false_r.
Qed.

Lemma GetStringUTFChars_fail st s :
  (pop (oracle st)).1 = false →
  GetStringUTFChars (JStr s) st =
  Ok None
     (State (engine st) (heap st) (jheap st) (views st)
        (pop (oracle st)).2 true
        (trace st ++ [EvGetStringUTFChars (JStr s)])).
Proof.
  intros Hok. unfold GetStringUTFChars.
  erewrite bind_run by reflexivity.
  erewrite bind_run by reflexivity. norm.
  rewrite Hok. cbn. by rewrite orb_true_r.
Qed.

Lemma ReleaseStringUTFChars_ok st jstr s :
  ReleaseStringUTFChars jstr (Some s)
    (State (engine st) (heap st) (jheap st) (S (views st)) (oracle st)
       (pending st) (trace st)) =
  Ok tt
     (State (engine st) (heap st) (jheap st) (views st) (oracle st)
        (pending st) (trace st ++ [EvReleaseStringUTFChars jstr])).
Proof. done. Qed.

Lemma ReleaseStringUTFChars_none st jstr :
  ReleaseStringUTFChars jstr None st =
  Ok tt
     (State (engine st) (heap st) (jheap st) (views st) (oracle st)
        (pending st) (trace st ++ [EvReleaseStringUTFChars jstr])).
Proof. done. Qed.

Lemma NewIntArray_ok st n :
  0 ≤ n → (pop (oracle st)).1 = true →
  NewIntArray n st =
  Ok (JRef (fresh (dom (jheap st))))
     (State (engine st) (heap st)
        (<[fresh (dom (jheap st)) := JIntArray (replicate (Z.to_nat n) 0)]>
           (jheap st))
        (views st) (pop (oracle st)).2 (pending st)
        (trace st ++ [EvNewIntArray n])).
Proof.
  intros Hn Hok. unfold NewIntArray.
  erewrite bind_run by reflexivity.
  rewrite decide_False by lia.
  by rewrite new_host_object_ok.
Qed.

Lemma SetIntArrayRegion_empty st r xs buf :
  jheap st !! r = Some (JIntArray xs) →
  SetIntArrayRegion (JRef r) 0 0 buf st =
  Ok tt
     (State (engine st) (heap st) (jheap st) (views st) (oracle st)
        (pending st) (trace st ++ [EvSetIntArrayRegion (JRef r) 0 0 buf])).
Proof.
  intros Hr. unfold SetIntArrayRegion.
  erewrite bind_run by reflexivity.
  erewrite bind_run; [|unfold host_load; cbn; by rewrite Hr].
  cbv beta iota. rewrite decide_False by lia.
  by rewrite decide_True.
Qed.

Lemma SetIntArrayRegion_copy st r xs n buf ys :
  jheap st !! r = Some (JIntArray xs) →
  0 < n ≤ Z.of_nat (length xs) →
  buf ≠ NULL → heap st !! buf = Some (BInts ys) →
  n ≤ Z.of_nat (length ys) →
  SetIntArrayRegion (JRef r) 0 n buf st =
  Ok tt
     (State (engine st) (heap st)
        (<[r := JIntArray (blit xs 0 (take (Z.to_nat n) ys))]> (jheap st))
        (views st) (oracle st) (pending st)
        (trace st ++ [EvSetIntArrayRegion (JRef r) 0 n buf])).
Proof.
  intros Hr Hn Hbuf Hys Hlen. unfold SetIntArrayRegion.
  erewrite bind_run by reflexivity.
  erewrite bind_run; [|unfold host_load; cbn; by rewrite Hr].
  cbv beta iota. rewrite decide_False by lia.
  rewrite decide_False by lia.
  erewrite bind_run by by apply load_ok.
  cbv beta iota. by rewrite decide_True.
Qed.

Lemma new_host_object_run st o :
  new_host_object o st =
  Ok (if (pop (oracle st)).1 then JRef (fresh (dom (jheap st))) else JNull)
     (State (engine st) (heap st)
        (if (pop (oracle st)).1
         then <[fresh (dom (jheap st)) := o]> (jheap st) else jheap st)
        (views st) (pop (oracle st)).2
        (pending st || negb (pop (oracle st)).1) (trace st)).
Proof.
  destruct (pop (oracle st)).1 eqn:Hok.
  - by rewrite new_host_object_ok, orb_false_r.
  - by rewrite new_host_object_fail, orb_true_r.
Qed.

Lemma NewObject_HashMap st :
  NewObject HashMap_class (MethodID HashMap_class "<init>" "()V") [] st =
  new_host_object (JHashMap ∅)
    (State (engine st) (heap st) (jheap st) (views st) (oracle st)
       (pending st) (trace st ++ [EvNewObject HashMap_class])).
Proof. unfold NewObject. by erewrite bind_run by reflexivity. Qed.

Lemma NewObject_RuleMetadata st map :
  NewObject RuleMetadata_class
    (MethodID RuleMetadata_class "<init>" "(Ljava/util/Map;)V") [map] st =
  new_host_object (JRuleMetadata map)
    (State (engine st) (heap st) (jheap st) (views st) (oracle st)
       (pending st) (trace st ++ [EvNewObject RuleMetadata_class])).
Proof. unfold NewObject. by erewrite bind_run by reflexivity. Qed.

Lemma bind_inv {A B} (m : M E A) (k : A → M E B) st b st'' :
  (m ≫= k) st = Ok b st'' →
  ∃ a st', m st = Ok a st' ∧ k a st' = Ok b st''.
Proof.
  unfold mbind, M_bind, bind. destruct (m st) as [a st'|f st']; [|done].
  eauto.
Qed.

Lemma load_inv st p b st' :
  load p st = Ok b st' → p ≠ NULL ∧ heap st !! p = Some b ∧ st' = st.
Proof.
  unfold load. case_decide; [done|].
  destruct (heap st !! p); [|done]. by intros [= -> ->].
Qed.

Lemma matches_len_inv st p n st' :
  matches_len p st = Ok n st' →
  p ≠ NULL ∧ (∃ buf, heap st !! p = Some (BMatches n buf)) ∧ st' = st.
Proof.
  unfold matches_len. intros (b & st1 & Hl & Hk)%bind_inv.
  apply load_inv in Hl as (Hp & Hb & ->).
  destruct b; try done. injection Hk as -> ->. eauto.
Qed.

Lemma GetStringUTFChars_run st s :
  GetStringUTFChars (JStr s) st =
  Ok (if (pop (oracle st)).1 then Some s else None)
     (State (engine st) (heap st) (jheap st)
        (if (pop (oracle st)).1 then S (views st) else views st)
        (pop (oracle st)).2 (pending st || negb (pop (oracle st)).1)
        (trace st ++ [EvGetStringUTFChars (JStr s)])).
Proof.
  destruct (pop (oracle st)).1 eqn:Hok.
  - by rewrite GetStringUTFChars_ok, orb_false_r.
  - by rewrite GetStringUTFChars_fail, orb_true_r.
Qed.

End Steps.

(** ** The match operation, run on a well-formed match set *)

Section Runs.
Context {E : Type} `{NativeEngine E}.
Implicit Types (st : state E).

Lemma blit_all (xs : list Z) :
  blit (replicate (length xs) 0) 0 (take (length xs) xs) = xs.
Proof.
  unfold blit. rewrite firstn_all, take_0. cbn.
  rewrite drop_ge; [by rewrite app_nil_r|].
  by rewrite length_replicate.
Qed.

Lemma Match_run st id s p e1 h1 n buf xs :
  array_allocated st →
  Match id (view_of st s) (engine st, heap st) = (p, (e1, h1)) →
  wf_matches h1 p n buf xs →
  Java_com_atlasgurus_rulestone_Rulestone_Match id (JStr s) st =
  Ok (JRef (fresh (dom (jheap st))))
     (State e1 (delete p (release buf h1))
        (<[fresh (dom (jheap st)) := JIntArray xs]> (jheap st))
        (views st) (pop (pop (oracle st)).2).2
        (pending st || negb (pop (oracle st)).1)
        (trace st ++
           [EvGetStringUTFChars (JStr s); EvNativeCall "Match";
            EvNewIntArray n;
            EvSetIntArrayRegion (JRef (fresh (dom (jheap st)))) 0 n buf;
            EvFree buf; EvFree p; EvReleaseStringUTFChars (JStr s)])).
Proof.
  unfold array_allocated, view_of.
  intros Ho Hnat (Hp & Hhdr & Hlen & Hne & Hbuf).
  destruct st as [e h j v o pd tr]; cbn in Ho, Hnat |- *.
  unfold Java_com_atlasgurus_rulestone_Rulestone_Match.
  erewrite bind_run by apply GetStringUTFChars_run. norm.
  set (v1 := if (pop o).1 then S v else v).
  set (pd1 := pd || negb (pop o).1).
  set (o2 := (pop (pop o).2).2).
  erewrite bind_run; [|unfold call_native; norm; by rewrite Hnat].
  erewrite bind_run by by eapply matches_len_ok.
  erewrite bind_run by (apply NewIntArray_ok; [lia|done]).
  erewrite bind_run by by eapply matches_len_ok.
  erewrite bind_run by by eapply matches_matches_ok.
  norm. fold o2. rewrite <- Hlen, Nat2Z.id.
  assert (Hset : ∀ tr',
    SetIntArrayRegion (JRef (fresh (dom j))) 0 (Z.of_nat (length xs)) buf
      (State e1 h1
         (<[fresh (dom j) := JIntArray (replicate (length xs) 0)]> j)
         v1 o2 pd1 tr') =
    Ok tt
      (State e1 h1 (<[fresh (dom j) := JIntArray xs]> j) v1 o2 pd1
         (tr' ++
          [EvSetIntArrayRegion (JRef (fresh (dom j))) 0
             (Z.of_nat (length xs)) buf]))).
  { intros tr'. destruct xs as [|x xs'].
    - by erewrite (SetIntArrayRegion_empty (State _ _ _ _ _ _ _))
        by apply lookup_insert_eq.
    - destruct (decide (buf = NULL)) as [->|Hb]; [done|].
      erewrite (SetIntArrayRegion_copy (State _ _ _ _ _ _ _));
        [|apply lookup_insert_eq|rewrite length_replicate; cbn [length]; lia|
         done|exact Hbuf|done].
      norm. by rewrite insert_insert_eq, Nat2Z.id, blit_all. }
  erewrite bind_run by apply Hset.
  erewrite bind_run by by eapply matches_matches_ok.
  clear Hset.
  assert (Hlive : release buf h1 !! p = Some (BMatches n buf)).
  { unfold release. case_decide; [done|]. by rewrite lookup_delete_ne. }
  assert (Hfree :
    ∀ tr', free buf (State e1 h1 (<[fresh (dom j) := JIntArray xs]> j)
                       v1 o2 pd1 tr') =
           Ok tt (State e1 (release buf h1)
                    (<[fresh (dom j) := JIntArray xs]> j) v1 o2 pd1
                    (tr' ++ [EvFree buf]))).
  { intros tr'. unfold release. destruct (decide (buf = NULL)) as [->|Hb].
    - by rewrite free_null.
    - by erewrite free_ok. }
  erewrite bind_run by apply Hfree.
  erewrite bind_run by by eapply (free_ok (State _ _ _ _ _ _ _)).
  norm. subst v1 n. destruct (pop o).1.
  - erewrite bind_run
      by apply (ReleaseStringUTFChars_ok (State _ _ _ _ _ _ _)).
    norm. unfold ret. by rewrite <- !app_assoc.
  - erewrite bind_run by apply ReleaseStringUTFChars_none.
    norm. unfold ret. by rewrite <- !app_assoc.
Qed.

(** ** The metadata loop, run on well-formed metadata *)

Lemma c_str_at_Some h q s :
  c_str_at h q = Some s →
  q ≠ NULL ∧ ∃ bytes, h !! q = Some (BChars bytes) ∧ c_str bytes = Some s.
Proof.
  unfold c_str_at. case_decide; [done|].
  destruct (h !! q) as [[]|]; naive_solver.
Qed.

Lemma c_str_at_delete h q q' :
  q ≠ q' → c_str_at (delete q' h) q = c_str_at h q.
Proof. intros. unfold c_str_at. by rewrite lookup_delete_ne. Qed.

Lemma pair_ind (P : list Z → Prop) :
  P [] → (∀ a, P [a]) → (∀ a b l, P l → P (a :: b :: l)) → ∀ l, P l.
Proof.
  intros Hnil Hone Hstep l.
  enough (P l ∧ ∀ a, P (a :: l)) by tauto.
  induction l as [|b l [IH1 IH2]]; [by split|].
  split; [apply IH2|]. intros a. by apply Hstep.
Qed.

Lemma read_pairs_delete h q ps :
  q ∉ ps → read_pairs (delete q h) ps = read_pairs h ps.
Proof.
  induction ps as [|a|kp vp rest IH] using pair_ind; intros Hq; [done..|].
  apply not_elem_of_cons in Hq as [? Hq].
  apply not_elem_of_cons in Hq as [? Hq].
  cbn. rewrite !c_str_at_delete by done. by rewrite IH.
Qed.

Lemma read_pairs_nil_inv h ps : read_pairs h ps = Some [] → ps = [].
Proof.
  destruct ps as [|kp [|vp rest]]; [done..|]. cbn.
  destruct (c_str_at h kp), (c_str_at h vp), (read_pairs h rest); done.
Qed.

Lemma read_pairs_cons_inv h ps k v kvs :
  read_pairs h ps = Some ((k, v) :: kvs) →
  ∃ kp vp rest, ps = kp :: vp :: rest ∧ c_str_at h kp = Some k ∧
                c_str_at h vp = Some v ∧ read_pairs h rest = Some kvs.
Proof.
  destruct ps as [|kp [|vp rest]]; [done..|]. cbn.
  destruct (c_str_at h kp) eqn:?, (c_str_at h vp) eqn:?,
    (read_pairs h rest) eqn:?; cbn; intros Heq; simplify_eq.
  by exists kp, vp, rest.
Qed.


Lemma metadata_loop_eq fuel metadata hashMap hashMapPut i :
  metadata_loop fuel metadata hashMap hashMapPut i =
  (size ← metadata_size metadata;
   if decide (i < size) then
     match fuel with
     | O => crash (E:=E) OutOfFuel
     | S fuel' =>
         kp ← metadata_at metadata (wrap32 (i * 2));
         key ← NewStringUTF kp;
         vp ← metadata_at metadata (wrap32 (wrap32 (i * 2) + 1));
         value ← NewStringUTF vp;
         CallObjectMethod hashMap hashMapPut [key; value];;
         kp' ← metadata_at metadata (wrap32 (i * 2));
         free kp';;
         vp' ← metadata_at metadata (wrap32 (wrap32 (i * 2) + 1));
         free vp';;
         metadata_loop fuel' metadata hashMap hashMapPut (wrap32 (i + 1))
     end
   else ret tt).
Proof. by destruct fuel. Qed.

Lemma index_drop (all : list Z) (i : nat) kp vp rest :
  drop (2 * i) all = kp :: vp :: rest →
  index all (Z.of_nat i * 2) = Some kp ∧
  index all (Z.of_nat i * 2 + 1) = Some vp ∧
  drop (2 * S i) all = rest.
Proof.
  intros Hd. unfold index. rewrite !decide_True by lia.
  replace (Z.to_nat (Z.of_nat i * 2)) with (2 * i + 0)%nat by lia.
  replace (Z.to_nat (Z.of_nat i * 2 + 1)) with (2 * i + 1)%nat by lia.
  rewrite <- (lookup_drop all (2 * i) 0), <- (lookup_drop all (2 * i) 1), Hd.
  split_and!; [done..|].
  replace (2 * S i)%nat with (2 * i + 2)%nat by lia.
  by rewrite <- drop_drop, Hd.
Qed.

Lemma metadata_loop_run kvs :
  ∀ ps fuel (i : nat) (e : E) h j v o pd tr p size arr all r m,
    p ≠ NULL → h !! p = Some (BMetadata size arr) →
    arr ≠ NULL → h !! arr = Some (BPtrs all) →
    drop (2 * i) all = ps → read_pairs h ps = Some kvs →
    NoDup ps → p ∉ ps → arr ∉ ps →
    size = Z.of_nat (i + length kvs) → size ≤ 2 ^ 30 →
    (length kvs ≤ fuel)%nat →
    metadata_loop fuel p (JRef r) HashMap_put (Z.of_nat i)
      (State e h (<[r := JHashMap m]> j) v o pd tr) =
    Ok tt
      (State e (free_all ps h)
         (<[r := JHashMap (put_pairs kvs (m, o, pd)).1.1]> j) v
         (put_pairs kvs (m, o, pd)).1.2 (put_pairs kvs (m, o, pd)).2
         (tr ++ loop_events (JRef r) ps)).
Proof.
  induction kvs as [|[k v'] kvs IH];
    intros ps fuel i e h j v o pd tr p size arr all r m
      Hp Hhdr Harr Hall Hdrop Hread Hnd Hpn Harrn Hsize Hbound Hfuel.
  - rewrite (read_pairs_nil_inv _ _ Hread). rewrite metadata_loop_eq.
    erewrite bind_run by by eapply (metadata_size_ok (State _ _ _ _ _ _ _)).
    cbn [length] in Hsize. rewrite decide_False by lia.
    cbn. by rewrite app_nil_r.
  - apply read_pairs_cons_inv in Hread
      as (kp & vp & rest & -> & Hk & Hv & Hrest).
    apply c_str_at_Some in Hk as (Hkp & kb & Hkb & Hks).
    apply c_str_at_Some in Hv as (Hvp & vb & Hvb & Hvs).
    apply NoDup_cons in Hnd as [Hkv Hnd].
    apply NoDup_cons in Hnd as [Hvr Hnd].
    apply not_elem_of_cons in Hkv as [Hkv Hkr].
    apply not_elem_of_cons in Hpn as [Hpk Hpn].
    apply not_elem_of_cons in Hpn as [Hpv Hpn].
    apply not_elem_of_cons in Harrn as [Hak Harrn].
    apply not_elem_of_cons in Harrn as [Hav Harrn].
    destruct (index_drop _ _ _ _ _ Hdrop) as (Hik & Hiv & Hdrop').
    cbn [length] in Hsize, Hfuel.
    destruct fuel as [|fuel]; [lia|].
    rewrite metadata_loop_eq.
    erewrite bind_run by by eapply (metadata_size_ok (State _ _ _ _ _ _ _)).
    rewrite decide_True by lia.
    rewrite (wrap32_id (Z.of_nat i * 2)) by lia.
    rewrite (wrap32_id (Z.of_nat i * 2 + 1)) by lia.
    rewrite (wrap32_id (Z.of_nat i + 1)) by lia.
    erewrite bind_run by by eapply (metadata_at_ok (State _ _ _ _ _ _ _)).
    erewrite bind_run by by eapply (NewStringUTF_ok (State _ _ _ _ _ _ _)).
    norm.
    erewrite bind_run by by eapply (metadata_at_ok (State _ _ _ _ _ _ _)).
    erewrite bind_run by by eapply (NewStringUTF_ok (State _ _ _ _ _ _ _)).
    norm.
    erewrite bind_run
      by (eapply (put_ok (State _ _ _ _ _ _ _)); apply lookup_insert_eq).
    norm.
    erewrite bind_run by by eapply (metadata_at_ok (State _ _ _ _ _ _ _)).
    erewrite bind_run by by eapply (free_ok (State _ _ _ _ _ _ _)).
    norm.
    erewrite bind_run;
      [|eapply (metadata_at_ok (State _ _ _ _ _ _ _)); norm;
        [done|by rewrite lookup_delete_ne|done|by rewrite lookup_delete_ne|
         done]].
    erewrite bind_run;
      [|eapply (free_ok (State _ _ _ _ _ _ _)); norm;
        [done|by rewrite lookup_delete_ne]].
    norm.
    replace (Z.of_nat i + 1) with (Z.of_nat (S i)) by lia.
    set (b1 := (pop o).1). set (o1 := (pop o).2).
    set (b2 := (pop o1).1). set (o2 := (pop o1).2).
    set (b3 := (pop o2).1). set (o3 := (pop o2).2).
    set (key := if b1 then JStr k else JNull).
    set (value := if b2 then JStr v' else JNull).
    assert (Hstep : put_step (k, v') (m, o, pd) =
                    (if b3 then <[key := value]> m else m, o3,
                     pd || negb b1 || negb b2 || negb b3)).
    { unfold put_step. subst b1 o1 b2 o2 b3 o3 key value.
      destruct (pop o) as [c1 q1]; cbn.
      destruct (pop q1) as [c2 q2]; cbn.
      by destruct (pop q2). }
    assert (Hj : (if b3
                  then <[r := JHashMap (<[key := value]> m)]>
                         (<[r := JHashMap m]> j)
                  else <[r := JHashMap m]> j) =
                 <[r := JHashMap (if b3 then <[key := value]> m else m)]> j).
    { destruct b3; [by rewrite insert_insert_eq|done]. }
    rewrite Hj.
    erewrite (IH rest fuel (S i));
      [|done|by rewrite !lookup_delete_ne|done|by rewrite !lookup_delete_ne|
       done|by rewrite !read_pairs_delete|done|done|done|lia|done|lia].
    cbn [put_pairs foldl]. fold (put_pairs kvs). rewrite Hstep.
    cbn [free_all foldl loop_events]. fold (free_all rest).
    by rewrite <- !app_assoc.
Qed.

Lemma lookup_free_all (h : gmap Z block) ps q :
  q ∉ ps → free_all ps h !! q = h !! q.
Proof.
  revert h. induction ps as [|a ps IH]; intros h Hq; [done|].
  apply not_elem_of_cons in Hq as [? ?].
  change (free_all ps (delete a h) !! q = h !! q).
  rewrite IH by done. by rewrite lookup_delete_ne.
Qed.


(** ** The metadata operation, run on well-formed metadata

    The outcome for every oracle under which the map object is created:
    [hs] is what the loop leaves on the host, [b] tells whether the
    record object is created at the end. *)
Lemma GetRuleMetadata_run st fuel id rule p e1 h1 size arr ps kvs :
  GetRuleMetadata id rule (engine st, heap st) = (p, (e1, h1)) →
  wf_metadata h1 p size arr ps kvs →
  (pop (oracle st)).1 = true →
  (length kvs ≤ fuel)%nat →
  let r := fresh (dom (jheap st)) in
  let hs := put_pairs kvs (∅, (pop (oracle st)).2, pending st) in
  let j1 := <[r := JHashMap hs.1.1]> (jheap st) in
  let b := (pop hs.1.2).1 in
  Java_com_atlasgurus_rulestone_Rulestone_GetRuleMetadata fuel id rule st =
  Ok (if b then JRef (fresh (dom j1)) else JNull)
     (State e1 (delete arr (free_all ps h1))
        (if b then <[fresh (dom j1) := JRuleMetadata (JRef r)]> j1 else j1)
        (views st) (pop hs.1.2).2 (hs.2 || negb b)
        (trace st ++
           [EvNativeCall "GetRuleMetadata"; EvNewObject HashMap_class] ++
           loop_events (JRef r) ps ++
           [EvFree arr; EvNewObject RuleMetadata_class])).
Proof.
  intros Hnat (Hp & Hhdr & Harr & Hall & Hread & Hsize & Hbound & Hnd)
    Hok Hfuel r hs j1 b.
  apply NoDup_cons in Hnd as [Hpn Hnd].
  apply NoDup_cons in Hnd as [Harrn Hnd].
  apply not_elem_of_cons in Hpn as [Hpa Hpn].
  destruct st as [e h j v o pd tr]; cbn in Hnat, Hok, r, hs, j1 |- *.
  unfold Java_com_atlasgurus_rulestone_Rulestone_GetRuleMetadata.
  erewrite bind_run; [|unfold call_native; cbn; by rewrite Hnat].
  rewrite decide_False by done.
  unfold FindClass, GetMethodID.
  erewrite bind_run;
    [|rewrite NewObject_HashMap; apply new_host_object_ok; exact Hok].
  norm.
  erewrite bind_run;
    [|eapply (metadata_loop_run kvs ps fuel 0 e1 h1 j v _ pd _ p size arr ps);
      [done..|lia|done|done]].
  erewrite bind_run;
    [|eapply (metadata_metadata_ok (State _ _ _ _ _ _ _)); norm;
      [done|by rewrite lookup_free_all]].
  erewrite bind_run;
    [|eapply (free_ok (State _ _ _ _ _ _ _)); norm;
      [done|by rewrite lookup_free_all]].
  norm. rewrite NewObject_RuleMetadata, new_host_object_run. norm.
  fold r hs j1 b. by rewrite <- !app_assoc.
Qed.

Lemma put_pairs_reliable kvs m pd :
  put_pairs kvs (m, [], pd) = (insert_pairs kvs m, [], pd).
Proof.
  revert m. induction kvs as [|[k v] kvs IH]; intros m; [done|].
  cbn. rewrite !orb_false_r. apply IH.
Qed.

(** ** Facts on traces and on the map the loop builds *)

Lemma frees_app tr1 tr2 : frees (tr1 ++ tr2) = frees tr1 ++ frees tr2.
Proof. apply omap_app. Qed.

Lemma frees_loop_events hashMap h ps kvs :
  read_pairs h ps = Some kvs → frees (loop_events hashMap ps) = ps.
Proof.
  revert ps. induction kvs as [|[k v] kvs IH]; intros ps Hps.
  - by rewrite (read_pairs_nil_inv _ _ Hps).
  - apply read_pairs_cons_inv in Hps as (kp & vp & rest & -> & _ & _ & Hr).
    cbn [loop_events]. by rewrite frees_app, (IH _ Hr).
Qed.

Lemma read_pairs_lookup h ps kvs (i : nat) k v :
  read_pairs h ps = Some kvs → kvs !! i = Some (k, v) →
  ∃ kp vp, ps !! (2 * i)%nat = Some kp ∧ ps !! (2 * i + 1)%nat = Some vp ∧
           c_str_at h kp = Some k ∧ c_str_at h vp = Some v.
Proof.
  revert ps i. induction kvs as [|[k0 v0] kvs IH]; intros ps i Hps Hi;
    [done|].
  apply read_pairs_cons_inv in Hps as (kp & vp & rest & -> & Hk & Hv & Hr).
  destruct i as [|i].
  - injection Hi as -> ->. by exists kp, vp.
  - destruct (IH rest i Hr Hi) as (kp' & vp' & H1 & H2 & H3 & H4).
    exists kp', vp'. split_and!; [| |done..].
    + by replace (2 * S i)%nat with (S (S (2 * i))) by lia.
    + by replace (2 * S i + 1)%nat with (S (S (2 * i + 1))) by lia.
Qed.









(** What the host receives when no host allocation fails. *)
Lemma GetRuleMetadata_view st fuel id rule p e1 h1 size arr ps kvs :
  oracle st = [] →
  GetRuleMetadata id rule (engine st, heap st) = (p, (e1, h1)) →
  wf_metadata h1 p size arr ps kvs →
  (length kvs ≤ fuel)%nat →
  ∃ r st',
    Java_com_atlasgurus_rulestone_Rulestone_GetRuleMetadata fuel id rule st
    = Ok (JRef r) st' ∧
    metadata_view st' (JRef r) = Some (insert_pairs kvs ∅) ∧
    ∀ (i : nat) k v,
      kvs !! i = Some (k, v) →
      native_key h1 ps i = Some k ∧ native_value h1 ps i = Some v.
Proof.
  intros Ho Hnat Hwf Hfuel.
  pose proof (GetRuleMetadata_run st fuel id rule p e1 h1 size arr ps kvs
                Hnat Hwf) as Hrun.
  rewrite Ho in Hrun. cbn [pop fst snd] in Hrun.
  rewrite put_pairs_reliable in Hrun. cbn [pop fst snd] in Hrun.
  eexists _, _. split; [by apply Hrun|].
  destruct Hwf as (_ & _ & _ & _ & Hread & Hsize & _ & _).
  split.
  - unfold metadata_view. norm. rewrite lookup_insert_eq.
    rewrite lookup_insert_ne, lookup_insert_eq; [done|].
    intros Heq.
    pose proof (is_fresh
      (dom (<[fresh (dom (jheap st)) := JHashMap (insert_pairs kvs ∅)]>
              (jheap st)))) as Hfr.
    rewrite Heq in Hfr. apply Hfr.
    rewrite dom_insert_L. set_solver.
  - intros i k v Hi.
    destruct (read_pairs_lookup _ _ _ _ _ _ Hread Hi)
      as (kp & vp & Hkp & Hvp & Hk & Hv).
    unfold native_key, native_value. by rewrite Hkp, Hvp.
Qed.

End Runs.

(** * The properties of the adapter *)

Section Properties.
Context {E : Type} `{NativeEngine E}.
Implicit Types (st : state E).

(** C6: engine creation returns the handle of the native create
    primitive as it is, whatever its value, and the view of the host
    string taken before the native call is released after it: the
    number of outstanding views is the one before the call. This holds
    whether or not the host could provide the view. *)
Theorem NewRuleEngine_returns_native_handle st s :
  let ok := (pop (oracle st)).1 in
  let out := NewRuleEngine (view_of st s) (engine st, heap st) in
  Java_com_atlasgurus_rulestone_Rulestone_NewRuleEngine (JStr s) st =
  Ok out.1
     (State out.2.1 out.2.2 (jheap st) (views st) (pop (oracle st)).2
        (pending st || negb ok)
        (trace st ++
           [EvGetStringUTFChars (JStr s); EvNativeCall "NewRuleEngine";
            EvReleaseStringUTFChars (JStr s)])).
Proof.
  intros ok out. subst ok out. unfold view_of.
  unfold Java_com_atlasgurus_rulestone_Rulestone_NewRuleEngine.
  destruct (pop (oracle st)).1 eqn:Hok.
  - destruct (NewRuleEngine (Some s) (engine st, heap st))
      as [handle [e1 h1]] eqn:Hnat.
    erewrite bind_run by by apply GetStringUTFChars_ok.
    erewrite bind_run; [|unfold call_native; norm; by rewrite Hnat].
    erewrite bind_run
      by apply (ReleaseStringUTFChars_ok (State _ _ _ _ _ _ _)).
    norm. unfold ret. cbn. by rewrite orb_false_r, <- !app_assoc.
  - destruct (NewRuleEngine None (engine st, heap st))
      as [handle [e1 h1]] eqn:Hnat.
    erewrite bind_run by by apply GetStringUTFChars_fail.
    erewrite bind_run; [|unfold call_native; norm; by rewrite Hnat].
    erewrite bind_run by apply ReleaseStringUTFChars_none.
    norm. unfold ret. cbn. by rewrite orb_true_r, <- !app_assoc.
Qed.

(** C3: for a match set of count [n] whose buffer holds [xs], the match
    operation returns a host array whose content is [xs]: length [n],
    the same identifier at every index. The host has to be able to
    allocate the array; the view of the input string may be missing. *)
Theorem Match_copies_every_identifier st id s p e1 h1 n buf xs :
  array_allocated st →
  Match id (view_of st s) (engine st, heap st) = (p, (e1, h1)) →
  wf_matches h1 p n buf xs →
  ∃ r st' ys,
    Java_com_atlasgurus_rulestone_Rulestone_Match id (JStr s) st
    = Ok (JRef r) st' ∧
    int_array_view st' (JRef r) = Some ys ∧
    Z.of_nat (length ys) = n ∧
    ∀ i : nat, ys !! i = xs !! i.
Proof.
  intros Ho Hnat Hwf. eexists _, _, xs.
  split; [by eapply Match_run|].
  cbn. rewrite lookup_insert_eq.
  by destruct Hwf as (_ & _ & Hlen & _).
Qed.

(** C7: for a match set of count zero the match operation returns a
    reference to an empty host array, not [NULL]. *)
Theorem Match_empty_set_gives_empty_array st id s p e1 h1 buf xs :
  array_allocated st →
  Match id (view_of st s) (engine st, heap st) = (p, (e1, h1)) →
  wf_matches h1 p 0 buf xs →
  ∃ r st',
    Java_com_atlasgurus_rulestone_Rulestone_Match id (JStr s) st
    = Ok (JRef r) st' ∧
    JRef r ≠ JNull ∧
    int_array_view st' (JRef r) = Some [].
Proof.
  intros Ho Hnat Hwf. eexists _, _.
  split; [by eapply Match_run|]. split; [done|].
  cbn. rewrite lookup_insert_eq.
  destruct Hwf as (_ & _ & Hlen & _).
  by destruct xs.
Qed.

(** C8: in a match call the buffer and the header of the match set are
    passed to [free] once each, after [SetIntArrayRegion] has copied
    the identifiers, and neither is allocated when the call returns. *)
Theorem Match_frees_after_copy_once st id s p e1 h1 n buf xs :
  array_allocated st →
  Match id (view_of st s) (engine st, heap st) = (p, (e1, h1)) →
  wf_matches h1 p n buf xs →
  ∃ r st',
    Java_com_atlasgurus_rulestone_Rulestone_Match id (JStr s) st
    = Ok (JRef r) st' ∧
    trace st' =
      trace st ++
      [EvGetStringUTFChars (JStr s); EvNativeCall "Match"; EvNewIntArray n;
       EvSetIntArrayRegion (JRef r) 0 n buf;
       EvFree buf; EvFree p; EvReleaseStringUTFChars (JStr s)] ∧
    buf ≠ p ∧
    heap st' = delete p (release buf h1) ∧
    heap st' !! p = None ∧
    (buf ≠ NULL → heap st' !! buf = None).
Proof.
  intros Ho Hnat Hwf. eexists _, _.
  split; [by eapply Match_run|].
  destruct Hwf as (_ & _ & _ & Hne & _).
  cbn. split_and!; [done..|apply lookup_delete_eq|].
  intros Hb. rewrite lookup_delete_ne by done.
  unfold release. rewrite decide_False by done. apply lookup_delete_eq.
Qed.




(** C2: when the native metadata primitive returns the null pointer,
    the metadata operation returns [NULL] and leaves the state as the
    native call left it: nothing is allocated on the host, no host
    allocation is attempted, nothing is released. Metadata without pairs
    yields a reference to a record holding the empty map instead, so the
    two results differ. *)
Theorem GetRuleMetadata_absent_is_null st fuel id rule :
  (∀ e1 h1,
     GetRuleMetadata id rule (engine st, heap st) = (NULL, (e1, h1)) →
     Java_com_atlasgurus_rulestone_Rulestone_GetRuleMetadata fuel id rule st
     = Ok JNull
         (State e1 h1 (jheap st) (views st) (oracle st) (pending st)
            (trace st ++ [EvNativeCall "GetRuleMetadata"]))) ∧
  (∀ p e1 h1 arr,
     oracle st = [] →
     GetRuleMetadata id rule (engine st, heap st) = (p, (e1, h1)) →
     wf_metadata h1 p 0 arr [] [] →
     ∃ r st',
       Java_com_atlasgurus_rulestone_Rulestone_GetRuleMetadata
         fuel id rule st
       = Ok (JRef r) st' ∧
       JRef r ≠ JNull ∧
       metadata_view st' (JRef r) = Some ∅).
Proof.
  split.
  - intros e1 h1 Hnat.
    unfold Java_com_atlasgurus_rulestone_Rulestone_GetRuleMetadata.
    erewrite bind_run; [|unfold call_native; by rewrite Hnat].
    by rewrite decide_True.
  - intros p e1 h1 arr Ho Hnat Hwf.
    destruct (GetRuleMetadata_view st fuel id rule p e1 h1 0 arr [] []
                Ho Hnat Hwf) as (r & st' & Hrun & Hview & _);
      [cbn; lia|].
    by exists r, st'.
Qed.

(** C10: the match operation dereferences the pointer returned by the
    native match primitive without a test. On a null pointer it is
    undefined (a fault in the model), and whenever it returns, the
    pointer was not null and pointed to a live match-set header. The
    metadata operation tests the pointer and returns [NULL] on null. *)
Theorem Match_dereferences_unchecked st id s :
  let out := Match id (view_of st s) (engine st, heap st) in
  (out.1 = NULL →
   ∃ st', Java_com_atlasgurus_rulestone_Rulestone_Match id (JStr s) st
          = Fault SegFault st') ∧
  (∀ res st',
     Java_com_atlasgurus_rulestone_Rulestone_Match id (JStr s) st
     = Ok res st' →
     out.1 ≠ NULL ∧ ∃ n buf, out.2.2 !! out.1 = Some (BMatches n buf)) ∧
  (∀ fuel rule,
     (GetRuleMetadata id rule (engine st, heap st)).1 = NULL →
     ∃ st',
       Java_com_atlasgurus_rulestone_Rulestone_GetRuleMetadata
         fuel id rule st
       = Ok JNull st').
Proof.
  intros out. unfold view_of in out.
  set (view := if (pop (oracle st)).1 then Some s else None) in out.
  split_and!.
  - intros Hnull.
    unfold Java_com_atlasgurus_rulestone_Rulestone_Match.
    erewrite bind_run by apply GetStringUTFChars_run.
    fold view. destruct out as [p [e1 h1]] eqn:Hout. cbn in Hnull. subst p.
    erewrite bind_run; [|unfold call_native; norm; subst out; by rewrite Hout].
    eexists. erewrite bind_fault; [done|].
    unfold matches_len. by erewrite bind_fault by apply load_null.
  - intros res st' Hrun.
    unfold Java_com_atlasgurus_rulestone_Rulestone_Match in Hrun.
    erewrite bind_run in Hrun by apply GetStringUTFChars_run.
    fold view in Hrun. destruct out as [p [e1 h1]] eqn:Hout.
    erewrite bind_run in Hrun;
      [|unfold call_native; norm; subst out; by rewrite Hout].
    apply bind_inv in Hrun as (n & st1 & Hlen & _).
    apply matches_len_inv in Hlen as (Hp & [buf Hb] & _).
    cbn. eauto.
  - intros fuel rule Hnull.
    destruct (GetRuleMetadata id rule (engine st, heap st))
      as [p [e1 h1]] eqn:Hnat.
    cbn in Hnull. subst p. eexists.
    unfold Java_com_atlasgurus_rulestone_Rulestone_GetRuleMetadata.
    erewrite bind_run; [|unfold call_native; by rewrite Hnat].
    by rewrite decide_True.
Qed.

(** C1: the header of the metadata received from the native engine is
    never passed to [free]: after a metadata call on well-formed
    metadata the strings and the flat array are released, and the
    header is still allocated. *)
Theorem GetRuleMetadata_header_outlives_call
    st fuel id rule p e1 h1 size arr ps kvs :
  GetRuleMetadata id rule (engine st, heap st) = (p, (e1, h1)) →
  wf_metadata h1 p size arr ps kvs →
  (pop (oracle st)).1 = true →
  (length kvs ≤ fuel)%nat →
  ∃ res st' tr',
    Java_com_atlasgurus_rulestone_Rulestone_GetRuleMetadata fuel id rule st
    = Ok res st' ∧
    trace st' = trace st ++ tr' ∧
    (p ∉ frees tr') ∧
    heap st' = delete arr (free_all ps h1) ∧
    heap st' !! p = Some (BMetadata size arr).
Proof.
  intros Hnat Hwf Hok Hfuel. eexists _, _, _.
  split; [by eapply GetRuleMetadata_run|].
  destruct Hwf as (_ & Hhdr & _ & _ & Hread & _ & _ & Hnd).
  apply NoDup_cons in Hnd as [Hp _].
  apply not_elem_of_cons in Hp as [Hpa Hpn].
  norm. split; [done|]. split_and!; [|done|].
  - change (p ∉ frees ([EvNativeCall "GetRuleMetadata";
                        EvNewObject HashMap_class] ++
                       loop_events (JRef (fresh (dom (jheap st)))) ps ++
                       [EvFree arr; EvNewObject RuleMetadata_class])).
    rewrite !frees_app, (frees_loop_events _ _ _ _ Hread). cbn.
    rewrite elem_of_app, list_elem_of_singleton. by intros [?|?].
  - rewrite lookup_delete_ne by done. by rewrite lookup_free_all.
Qed.

End Properties.

(** * Further properties: frames, failures and bounds *)

Section Further.
Context {E : Type} `{NativeEngine E}.
Implicit Types (st : state E).

Lemma NewIntArray_negative st n :
  n < 0 →
  NewIntArray n st =
  Ok JNull
     (State (engine st) (heap st) (jheap st) (views st) (oracle st) true
        (trace st ++ [EvNewIntArray n])).
Proof.
  intros Hn. unfold NewIntArray.
  erewrite bind_run by reflexivity.
  by rewrite decide_True.
Qed.

Lemma NewIntArray_fail st n :
  0 ≤ n → (pop (oracle st)).1 = false →
  NewIntArray n st =
  Ok JNull
     (State (engine st) (heap st) (jheap st) (views st) (pop (oracle st)).2
        true (trace st ++ [EvNewIntArray n])).
Proof.
  intros Hn Hok. unfold NewIntArray.
  erewrite bind_run by reflexivity.
  rewrite decide_False by lia.
  by rewrite new_host_object_fail.
Qed.

Lemma SetIntArrayRegion_null st start len buf :
  SetIntArrayRegion JNull start len buf st =
  Fault JniMisuse
    (State (engine st) (heap st) (jheap st) (views st) (oracle st)
       (pending st) (trace st ++ [EvSetIntArrayRegion JNull start len buf])).
Proof. done. Qed.


(** X5: the match operation does not test the array it asks the host
    for. When [NewIntArray] returns [NULL], because the count is negative
    or because the host cannot allocate, the call faults in
    [SetIntArrayRegion]; nothing has been released at that point. *)
Theorem Match_unallocated_array_faults st id s p e1 h1 n buf :
  Match id (view_of st s) (engine st, heap st) = (p, (e1, h1)) →
  p ≠ NULL → h1 !! p = Some (BMatches n buf) →
  n < 0 ∨ ¬ array_allocated st →
  ∃ st',
    Java_com_atlasgurus_rulestone_Rulestone_Match id (JStr s) st
    = Fault JniMisuse st' ∧
    heap st' = h1 ∧
    frees (trace st') = frees (trace st).
Proof.
  unfold array_allocated, view_of. intros Hnat Hp Hhdr Hcase.
  destruct st as [e h j v o pd tr]; cbn in Hnat, Hcase |- *.
  unfold Java_com_atlasgurus_rulestone_Rulestone_Match.
  erewrite bind_run by apply GetStringUTFChars_run. norm.
  erewrite bind_run; [|unfold call_native; norm; by rewrite Hnat].
  erewrite bind_run by by eapply matches_len_ok.
  destruct (decide (n < 0)) as [Hn|Hn].
  - erewrite bind_run by by apply NewIntArray_negative.
    erewrite bind_run by by eapply matches_len_ok.
    erewrite bind_run by by eapply matches_matches_ok.
    erewrite bind_fault by apply SetIntArrayRegion_null.
    eexists. split; [done|]. norm. split; [done|].
    by rewrite !frees_app, !app_nil_r.
  - destruct Hcase as [?|Hfail]; [done|].
    apply not_true_is_false in Hfail.
    erewrite bind_run by (apply NewIntArray_fail; [lia|done]).
    erewrite bind_run by by eapply matches_len_ok.
    erewrite bind_run by by eapply matches_matches_ok.
    erewrite bind_fault by apply SetIntArrayRegion_null.
    eexists. split; [done|]. norm. split; [done|].
    by rewrite !frees_app, !app_nil_r.
Qed.

Ltac norm_in H :=
  cbn [engine heap jheap views oracle pending trace
       set_heap set_jheap set_views] in H.

Lemma fresh_not_in (j : gmap N jobj) : j !! fresh (dom j) = None.
Proof. apply not_elem_of_dom, is_fresh. Qed.

(** X1: a match call touches nothing but what it received and what it
    returns. Every native block other than the header and the buffer of
    the match set is as the native call left it, the array returned is a
    new host object and every other host object is unchanged, and the
    view of the input string has been given back. *)
Theorem Match_touches_only_its_result st id s p e1 h1 n buf xs :
  array_allocated st →
  Match id (view_of st s) (engine st, heap st) = (p, (e1, h1)) →
  wf_matches h1 p n buf xs →
  ∃ r st',
    Java_com_atlasgurus_rulestone_Rulestone_Match id (JStr s) st
    = Ok (JRef r) st' ∧
    (∀ q, q ≠ p → q ≠ buf → heap st' !! q = h1 !! q) ∧
    jheap st !! r = None ∧
    (∀ r', r' ≠ r → jheap st' !! r' = jheap st !! r') ∧
    views st' = views st ∧
    engine st' = e1.
Proof.
  intros Ho Hnat Hwf. eexists _, _.
  split; [by eapply Match_run|]. norm. split_and!; [|apply fresh_not_in| |done..].
  - intros q Hqp Hqb. rewrite lookup_delete_ne by done.
    unfold release. case_decide; [done|]. by rewrite lookup_delete_ne.
  - intros r' Hr'. by rewrite lookup_insert_ne.
Qed.

(** X3: a metadata call touches no native block other than the strings
    and the flat array it releases, whatever the host-side conversions
    do; the objects it creates on the host are new and every other host
    object is unchanged. *)
Theorem GetRuleMetadata_touches_only_its_result
    st fuel id rule p e1 h1 size arr ps kvs :
  GetRuleMetadata id rule (engine st, heap st) = (p, (e1, h1)) →
  wf_metadata h1 p size arr ps kvs →
  (pop (oracle st)).1 = true →
  (length kvs ≤ fuel)%nat →
  ∃ res st',
    Java_com_atlasgurus_rulestone_Rulestone_GetRuleMetadata fuel id rule st
    = Ok res st' ∧
    (∀ q, q ∉ ps → q ≠ arr → heap st' !! q = h1 !! q) ∧
    (∀ r', is_Some (jheap st !! r') → jheap st' !! r' = jheap st !! r') ∧
    views st' = views st ∧
    engine st' = e1.
Proof.
  intros Hnat Hwf Hok Hfuel. eexists _, _.
  split; [by eapply GetRuleMetadata_run|]. norm. split_and!; [| |done..].
  - intros q Hq Hqa. rewrite lookup_delete_ne by done.
    by apply lookup_free_all.
  - intros r' [o Hr'].
    set (r := fresh (dom (jheap st))).
    set (hs := put_pairs kvs (∅, (pop (oracle st)).2, pending st)).
    set (j1 := <[r := JHashMap hs.1.1]> (jheap st)).
    assert (j1 !! r' = jheap st !! r') as Hj1.
    { subst j1. apply lookup_insert_ne. intros <-.
      subst r. by rewrite fresh_not_in in Hr'. }
    destruct (pop hs.1.2).1; [|done].
    rewrite lookup_insert_ne; [done|]. intros <-.
    rewrite fresh_not_in in Hj1. congruence.
Qed.

(** X6: when the native engine has returned metadata, the metadata
    operation returns [NULL] only with a host exception pending, any
    other result is a record holding a map, and an exception pending
    before the call is still pending after it. *)
Theorem GetRuleMetadata_null_result_raises
    st fuel id rule p e1 h1 size arr ps kvs :
  GetRuleMetadata id rule (engine st, heap st) = (p, (e1, h1)) →
  wf_metadata h1 p size arr ps kvs →
  (pop (oracle st)).1 = true →
  (length kvs ≤ fuel)%nat →
  ∃ res st',
    Java_com_atlasgurus_rulestone_Rulestone_GetRuleMetadata fuel id rule st
    = Ok res st' ∧
    (res = JNull → pending st' = true) ∧
    (res ≠ JNull → ∃ m, metadata_view st' res = Some m) ∧
    (pending st = true → pending st' = true).
Proof.
  intros Hnat Hwf Hok Hfuel. eexists _, _.
  split; [by eapply GetRuleMetadata_run|]. norm.
  set (r := fresh (dom (jheap st))).
  set (hs := put_pairs kvs (∅, (pop (oracle st)).2, pending st)).
  set (j1 := <[r := JHashMap hs.1.1]> (jheap st)).
  assert (Hmono : ∀ l m o pd, pd = true → (put_pairs l (m, o, pd)).2 = true).
  { induction l as [|kv l IH]; intros m o pd ->; [done|].
    cbn [put_pairs foldl]. fold (put_pairs l). unfold put_step.
    destruct (pop o) as [b1 o1], (pop o1) as [b2 o2], (pop o2) as [b3 o3].
    by apply IH. }
  split_and!.
  - destruct (pop hs.1.2).1; [done|]. intros _. apply orb_true_r.
  - destruct (pop hs.1.2).1; [|done]. intros _.
    exists hs.1.1. unfold metadata_view. norm. rewrite lookup_insert_eq.
    rewrite lookup_insert_ne.
    + subst j1. by rewrite lookup_insert_eq.
    + intros Heq. pose proof (fresh_not_in j1) as Hfr.
      rewrite Heq in Hfr. subst j1. by rewrite lookup_insert_eq in Hfr.
  - intros Hpd. subst hs. by rewrite (Hmono _ _ _ _ Hpd).
Qed.


(** X8: when the host cannot create the map object and the metadata has
    no pair, the loop is not entered, the flat array is released, and the
    host receives a record built on the null reference in place of a
    map, or [NULL] when the record cannot be created either. *)
Theorem GetRuleMetadata_empty_without_map st fuel id rule p e1 h1 arr :
  GetRuleMetadata id rule (engine st, heap st) = (p, (e1, h1)) →
  wf_metadata h1 p 0 arr [] [] →
  (pop (oracle st)).1 = false →
  ∃ res st',
    Java_com_atlasgurus_rulestone_Rulestone_GetRuleMetadata fuel id rule st
    = Ok res st' ∧
    heap st' = delete arr h1 ∧
    pending st' = true ∧
    match res with
    | JRef r => jheap st' !! r = Some (JRuleMetadata JNull)
    | _ => res = JNull
    end.
Proof.
  intros Hnat (Hp & Hhdr & Harr & Hall & Hread & Hsize & Hbound & Hnd) Hok.
  apply NoDup_cons in Hnd as [Hpn _].
  apply not_elem_of_cons in Hpn as [Hpa _].
  destruct st as [e h j v0 o pd tr]; cbn in Hnat, Hok |- *.
  unfold Java_com_atlasgurus_rulestone_Rulestone_GetRuleMetadata.
  erewrite bind_run; [|unfold call_native; cbn; by rewrite Hnat].
  rewrite decide_False by done.
  unfold FindClass, GetMethodID.
  erewrite bind_run;
    [|rewrite NewObject_HashMap; apply new_host_object_fail; exact Hok].
  norm. rewrite metadata_loop_eq.
  erewrite bind_run.
  2:{ erewrite bind_run
        by by eapply (metadata_size_ok (State _ _ _ _ _ _ _)).
      by rewrite decide_False by lia. }
  erewrite bind_run by by eapply (metadata_metadata_ok (State _ _ _ _ _ _ _)).
  erewrite bind_run by by eapply (free_ok (State _ _ _ _ _ _ _)).
  norm. rewrite NewObject_RuleMetadata, new_host_object_run. norm.
  eexists _, _. split; [done|]. norm. split_and!; [done..|].
  destruct (pop (pop o).2).1; [|done].
  apply lookup_insert_eq.
Qed.

Lemma free_dead_state st q :
  q ≠ NULL → heap st !! q = None →
  free q st =
  Fault InvalidFree
    (State (engine st) (heap st) (jheap st) (views st) (oracle st)
       (pending st) (trace st ++ [EvFree q])).
Proof.
  intros Hq Hb. unfold free.
  erewrite bind_run by reflexivity.
  unfold step. rewrite decide_False by done. cbn. by rewrite Hb.
Qed.

(** X10: key and value of a pair are released by two calls of [free],
    so the engine has to hand out two allocations per pair. When both
    slots of the only pair hold the same pointer, the pair is converted
    and inserted, the string is released once, and the second [free] of
    it is undefined, a fault. *)
Theorem GetRuleMetadata_shared_string_faults
    st fuel id rule p e1 h1 arr q bytes s :
  GetRuleMetadata id rule (engine st, heap st) = (p, (e1, h1)) →
  p ≠ NULL → h1 !! p = Some (BMetadata 1 arr) →
  arr ≠ NULL → h1 !! arr = Some (BPtrs [q; q]) →
  q ≠ NULL → h1 !! q = Some (BChars bytes) → c_str bytes = Some s →
  q ≠ p → q ≠ arr →
  (pop (oracle st)).1 = true →
  ∃ st',
    Java_com_atlasgurus_rulestone_Rulestone_GetRuleMetadata (S fuel) id rule
      st
    = Fault InvalidFree st' ∧
    heap st' = delete q h1 ∧
    frees (trace st') = frees (trace st) ++ [q; q].
Proof.
  intros Hnat Hp Hhdr Harr Hall Hq Hqb Hs Hqp Hqa Hok.
  destruct st as [e h j v0 o pd tr]; cbn in Hnat, Hok |- *.
  unfold Java_com_atlasgurus_rulestone_Rulestone_GetRuleMetadata.
  erewrite bind_run; [|unfold call_native; cbn; by rewrite Hnat].
  rewrite decide_False by done.
  unfold FindClass, GetMethodID.
  erewrite bind_run;
    [|rewrite NewObject_HashMap; apply new_host_object_ok; exact Hok].
  norm. rewrite metadata_loop_eq.
  erewrite bind_fault; [eexists; split; [done|]|].
  2:{ erewrite bind_run
        by by eapply (metadata_size_ok (State _ _ _ _ _ _ _)).
      rewrite decide_True by lia.
      change (wrap32 (0 * 2)) with 0. change (wrap32 (0 + 1)) with 1.
      erewrite bind_run by by eapply (metadata_at_ok (State _ _ _ _ _ _ _)).
      erewrite bind_run by by eapply (NewStringUTF_ok (State _ _ _ _ _ _ _)).
      norm.
      erewrite bind_run by by eapply (metadata_at_ok (State _ _ _ _ _ _ _)).
      erewrite bind_run by by eapply (NewStringUTF_ok (State _ _ _ _ _ _ _)).
      norm.
      erewrite bind_run
        by (eapply (put_ok (State _ _ _ _ _ _ _)); apply lookup_insert_eq).
      norm.
      erewrite bind_run by by eapply (metadata_at_ok (State _ _ _ _ _ _ _)).
      erewrite bind_run by by eapply (free_ok (State _ _ _ _ _ _ _)).
      norm.
      erewrite bind_run;
        [|eapply (metadata_at_ok (State _ _ _ _ _ _ _)); norm;
          [done|by rewrite lookup_delete_ne|done|by rewrite lookup_delete_ne|
           done]].
      erewrite bind_fault;
        [|eapply (free_dead_state (State _ _ _ _ _ _ _)); norm;
          [done|apply lookup_delete_eq]].
      norm. reflexivity. }
  norm. split; [done|]. by rewrite <- !app_assoc, frees_app.
Qed.

Lemma repeat_calls_S {A} n (c : M E A) st a st1 :
  c st = Ok a st1 → repeat_calls (S n) c st = repeat_calls n c st1.
Proof. intros Hc. cbn [repeat_calls]. by erewrite bind_run. Qed.

(** X2: match calls do not accumulate native memory. With an engine
    that allocates the match set it returns and a host that can
    allocate, any number of consecutive match calls leaves the C heap
    and the number of string views as they were before the first call;
    every call has added one array to the host heap. *)
Theorem Match_calls_leave_no_native_block (I : E → Prop) id s n :
  match_allocates I id →
  ∀ st, I (engine st) → oracle st = [] →
    ∃ st',
      repeat_calls n
        (Java_com_atlasgurus_rulestone_Rulestone_Match id (JStr s)) st
      = Ok tt st' ∧
      heap st' = heap st ∧
      views st' = views st ∧
      size (jheap st') = (size (jheap st) + n)%nat ∧
      I (engine st') ∧ oracle st' = [].
Proof.
  intros Halloc. induction n as [|n IH]; intros st HI Ho.
  - exists st. split_and!; try done; unfold outstanding; lia.
  - destruct (Halloc (view_of st s) (engine st) (heap st) HI)
      as (p & e1 & k & buf & xs & Hnat & HI1 & Hp & Hbuf & Hne & Hfp & Hfb
          & Hlen).
    assert (wf_matches (<[p := BMatches k buf]> (<[buf := BInts xs]> (heap st)))
              p k buf xs) as Hwf.
    { split_and!; [done|apply lookup_insert_eq|done|done|].
      rewrite decide_False by done.
      rewrite lookup_insert_ne by done. apply lookup_insert_eq. }
    assert (array_allocated st) as Harr.
    { unfold array_allocated. by rewrite Ho. }
    pose proof (Match_run st id s p e1 _ k buf xs Harr Hnat Hwf) as Hrun.
    erewrite repeat_calls_S by exact Hrun.
    match type of Hrun with _ = Ok _ ?st1 => destruct (IH st1) as
        (st' & Hrep & Hheap & Hviews & Hsize & HI' & Ho') end.
    { done. }
    { norm. by rewrite Ho. }
    exists st'. split; [done|]. norm_in Hheap. norm_in Hviews.
    norm_in Hsize. split_and!; [|done| |done..].
    + rewrite Hheap. unfold release. rewrite decide_False by done.
      rewrite delete_insert_ne by congruence.
      rewrite (delete_insert_id (heap st) buf) by done.
      by apply delete_insert_id.
    + rewrite Hsize, map_size_insert_None by apply fresh_not_in. lia.
Qed.

(** X4: metadata calls accumulate native memory. With an engine that
    allocates the metadata it returns and a host that can allocate, [n]
    consecutive metadata calls for a rule that has metadata leave [n]
    more native blocks allocated than before the first call: the
    headers, which are never released. *)
Theorem GetRuleMetadata_calls_leave_one_header_each
    (I : E → Prop) id rule fuel n :
  metadata_allocates I id rule fuel →
  ∀ st, I (engine st) → oracle st = [] →
    ∃ st',
      repeat_calls n
        (Java_com_atlasgurus_rulestone_Rulestone_GetRuleMetadata
           fuel id rule) st
      = Ok tt st' ∧
      outstanding st' = (outstanding st + n)%nat ∧
      views st' = views st ∧
      I (engine st') ∧ oracle st' = [].
Proof.
  intros Halloc. induction n as [|n IH]; intros st HI Ho.
  - exists st. split_and!; try done; unfold outstanding; lia.
  - destruct (Halloc (engine st) (heap st) HI)
      as (p & e1 & h1 & sz & arr & ps & kvs & Hnat & HI1 & Hwf & Hfuel
          & Hfp & Hrest).
    assert ((pop (oracle st)).1 = true) as Hok by by rewrite Ho.
    pose proof (GetRuleMetadata_run st fuel id rule p e1 h1 sz arr ps kvs
                  Hnat Hwf Hok Hfuel) as Hrun.
    cbv zeta in Hrun. rewrite Ho in Hrun. cbn [pop fst snd] in Hrun.
    rewrite put_pairs_reliable in Hrun. cbn [pop fst snd] in Hrun.
    erewrite repeat_calls_S by exact Hrun.
    match type of Hrun with _ = Ok _ ?st1 => destruct (IH st1) as
        (st' & Hrep & Hout & Hviews & HI' & Ho') end.
    { done. }
    { done. }
    exists st'. split; [done|]. unfold outstanding in *.
    norm_in Hout. norm_in Hviews. split_and!; [|done..].
    rewrite Hout.
    destruct Hwf as (_ & Hhdr & _ & _ & _ & _ & _ & Hnd).
    apply NoDup_cons in Hnd as [Hpn _].
    apply not_elem_of_cons in Hpn as [Hpa Hpn].
    assert (is_Some (delete arr (free_all ps h1) !! p)) as Hlive.
    { rewrite lookup_delete_ne by done. rewrite lookup_free_all by done.
      eauto. }
    pose proof (map_size_delete_Some p _ Hlive) as Hsz.
    rewrite Hrest in Hsz.
    assert (size (delete arr (free_all ps h1)) ≠ 0%nat).
    { intros Hz. apply map_size_empty_iff in Hz. rewrite Hz in Hlive.
      rewrite lookup_empty in Hlive. by destruct Hlive. }
    lia.
Qed.

(** X12: a count that is zero or negative means no pair. The loop is
    not entered and no slot of the array is read, whatever the block at
    [metadata->metadata] holds; that block is released and the host
    receives a record holding the empty map. *)
Theorem GetRuleMetadata_nonpositive_size
    st fuel id rule p e1 h1 size arr b :
  GetRuleMetadata id rule (engine st, heap st) = (p, (e1, h1)) →
  p ≠ NULL → h1 !! p = Some (BMetadata size arr) →
  size ≤ 0 →
  arr ≠ NULL → arr ≠ p → h1 !! arr = Some b →
  oracle st = [] →
  ∃ r st',
    Java_com_atlasgurus_rulestone_Rulestone_GetRuleMetadata fuel id rule st
    = Ok (JRef r) st' ∧
    metadata_view st' (JRef r) = Some ∅ ∧
    heap st' = delete arr h1 ∧
    trace st' =
      trace st ++
      [EvNativeCall "GetRuleMetadata"; EvNewObject HashMap_class;
       EvFree arr; EvNewObject RuleMetadata_class].
Proof.
  intros Hnat Hp Hhdr Hsize Harr Hne Hb Ho.
  destruct st as [e h j v0 o pd tr]; cbn in Hnat, Ho |- *. subst o.
  unfold Java_com_atlasgurus_rulestone_Rulestone_GetRuleMetadata.
  erewrite bind_run; [|unfold call_native; cbn; by rewrite Hnat].
  rewrite decide_False by done.
  unfold FindClass, GetMethodID.
  erewrite bind_run;
    [|rewrite NewObject_HashMap; by apply new_host_object_ok].
  norm. rewrite metadata_loop_eq.
  erewrite bind_run.
  2:{ erewrite bind_run
        by by eapply (metadata_size_ok (State _ _ _ _ _ _ _)).
      by rewrite decide_False by lia. }
  erewrite bind_run by by eapply (metadata_metadata_ok (State _ _ _ _ _ _ _)).
  erewrite bind_run by by eapply (free_ok (State _ _ _ _ _ _ _)).
  norm. rewrite NewObject_RuleMetadata.
  rewrite new_host_object_ok by done. norm.
  eexists _, _. split; [done|]. unfold metadata_view. norm.
  split_and!; [|done|by rewrite <- !app_assoc].
  rewrite lookup_insert_eq.
  rewrite lookup_insert_ne, lookup_insert_eq; [done|].
  intros Heq.
  pose proof (fresh_not_in (<[fresh (dom j) := JHashMap ∅]> j)) as Hfr.
  rewrite Heq in Hfr. by rewrite lookup_insert_eq in Hfr.
Qed.

End Further.

(** * The properties on the engine of the scenario *)

Lemma wf_match_7 : wf_matches heap_match_7 2 1 1 [7].
Proof. by split_and!. Qed.

Lemma wf_match_none : wf_matches heap_match_none 2 0 1 [].
Proof. by split_and!. Qed.

Lemma wf_metadata_7 :
  wf_metadata heap_metadata_7 4 1 3 [1; 2] [("severity", "high")].
Proof.
  split_and!; try done.
  apply (bool_decide_unpack _). by vm_compute.
Qed.

Lemma wf_metadata_8 : wf_metadata heap_metadata_8 2 0 1 [] [].
Proof.
  split_and!; try done.
  apply (bool_decide_unpack _). by vm_compute.
Qed.

Lemma Match_copies_every_identifier_witness :
  ∃ r st' ys,
    Java_com_atlasgurus_rulestone_Rulestone_Match 0 (JStr "trigger") ready
    = Ok (JRef r) st' ∧
    int_array_view st' (JRef r) = Some ys ∧
    Z.of_nat (length ys) = 1 ∧
    ∀ i : nat, ys !! i = [7] !! i.
Proof.
  apply (Match_copies_every_identifier ready 0 "trigger" 2 1%nat
           heap_match_7 1 1 [7]).
  - reflexivity.
  - reflexivity.
  - exact wf_match_7.
Defined.

Lemma Match_empty_set_gives_empty_array_witness :
  ∃ r st',
    Java_com_atlasgurus_rulestone_Rulestone_Match 0 (JStr "quiet") ready
    = Ok (JRef r) st' ∧
    JRef r ≠ JNull ∧
    int_array_view st' (JRef r) = Some [].
Proof.
  apply (Match_empty_set_gives_empty_array ready 0 "quiet" 2 1%nat
           heap_match_none 1 []).
  - reflexivity.
  - reflexivity.
  - exact wf_match_none.
Defined.

Lemma Match_frees_after_copy_once_witness :
  ∃ r st',
    Java_com_atlasgurus_rulestone_Rulestone_Match 0 (JStr "trigger") ready
    = Ok (JRef r) st' ∧
    trace st' =
      trace ready ++
      [EvGetStringUTFChars (JStr "trigger"); EvNativeCall "Match";
       EvNewIntArray 1; EvSetIntArrayRegion (JRef r) 0 1 1;
       EvFree 1; EvFree 2; EvReleaseStringUTFChars (JStr "trigger")] ∧
    1 ≠ 2 ∧
    heap st' = delete 2 (release 1 heap_match_7) ∧
    heap st' !! 2 = None ∧
    (1 ≠ NULL → heap st' !! 1 = None).
Proof.
  apply (Match_frees_after_copy_once ready 0 "trigger" 2 1%nat
           heap_match_7 1 1 [7]).
  - reflexivity.
  - reflexivity.
  - exact wf_match_7.
Defined.




Lemma GetRuleMetadata_absent_is_null_witness :
  Java_com_atlasgurus_rulestone_Rulestone_GetRuleMetadata 1 0 99 ready
  = Ok JNull
      (State 1%nat ∅ ∅ O [] false [EvNativeCall "GetRuleMetadata"]) ∧
  ∃ r st',
    Java_com_atlasgurus_rulestone_Rulestone_GetRuleMetadata 1 0 8 ready
    = Ok (JRef r) st' ∧
    JRef r ≠ JNull ∧
    metadata_view st' (JRef r) = Some ∅.
Proof.
  split.
  - apply (proj1 (GetRuleMetadata_absent_is_null ready 1 0 99) 1%nat ∅).
    reflexivity.
  - apply (proj2 (GetRuleMetadata_absent_is_null ready 1 0 8) 2 1%nat
             heap_metadata_8 1).
    + reflexivity.
    + reflexivity.
    + exact wf_metadata_8.
Defined.

Lemma Match_dereferences_unchecked_witness :
  (∃ st', Java_com_atlasgurus_rulestone_Rulestone_Match 5 (JStr "trigger")
            ready
          = Fault SegFault st') ∧
  (∃ st', Java_com_atlasgurus_rulestone_Rulestone_GetRuleMetadata 1 5 7 ready
          = Ok JNull st').
Proof.
  destruct (Match_dereferences_unchecked ready 5 "trigger")
    as (Hnull & _ & Hmeta).
  split.
  - apply Hnull. reflexivity.
  - apply Hmeta. reflexivity.
Defined.

Lemma GetRuleMetadata_header_outlives_call_witness :
  outstanding ready = 0%nat ∧
  ∃ res st' tr',
    Java_com_atlasgurus_rulestone_Rulestone_GetRuleMetadata 1 0 7 ready
    = Ok res st' ∧
    trace st' = trace ready ++ tr' ∧
    (4 ∉ frees tr') ∧
    heap st' = delete 3 (free_all [1; 2] heap_metadata_7) ∧
    heap st' !! 4 = Some (BMetadata 1 3).
Proof.
  split; [reflexivity|].
  apply (GetRuleMetadata_header_outlives_call ready 1 0 7 4 1%nat
           heap_metadata_7 1 3 [1; 2] [("severity", "high")]).
  - reflexivity.
  - exact wf_metadata_7.
  - reflexivity.
  - cbn. lia.
Defined.



(** The scenario of the specification, run on the engine above. *)

Example scenario_create :
  Java_com_atlasgurus_rulestone_Rulestone_NewRuleEngine (JStr "rules.yaml")
    init
  = Ok 0 (State 1%nat ∅ ∅ O [] false
            [EvGetStringUTFChars (JStr "rules.yaml");
             EvNativeCall "NewRuleEngine";
             EvReleaseStringUTFChars (JStr "rules.yaml")]).
Proof. reflexivity. Qed.

Example scenario_create_fails :
  ∃ st', Java_com_atlasgurus_rulestone_Rulestone_NewRuleEngine
           (JStr "rules.yaml") (State O ∅ ∅ O [false] false [])
         = Ok (-1) st' ∧ views st' = O.
Proof. vm_compute. eexists. split; reflexivity. Qed.

Example scenario_match :
  returns
    (Java_com_atlasgurus_rulestone_Rulestone_Match 0 (JStr "trigger") ready)
    (λ res st', int_array_view st' res = Some [7] ∧
                outstanding st' = outstanding ready).
Proof. vm_compute. repeat split. Qed.

Example scenario_metadata :
  returns
    (Java_com_atlasgurus_rulestone_Rulestone_GetRuleMetadata 1 0 7 ready)
    (λ res st',
       metadata_view st' res ≫= (λ m, m !! JStr "severity")
       = Some (JStr "high") ∧
       size <$> metadata_view st' res = Some 1%nat ∧
       map_to_list (heap st') = [(4, BMetadata 1 3)] ∧
       outstanding st' = S (outstanding ready)).
Proof. vm_compute. repeat split. Qed.

Example scenario_metadata_absent :
  returns
    (Java_com_atlasgurus_rulestone_Rulestone_GetRuleMetadata 1 0 99 ready)
    (λ res st', res = JNull ∧ outstanding st' = outstanding ready).
Proof. vm_compute. repeat split. Qed.

(** * The further properties on the engines above *)

Lemma malloc_fresh (h : gmap Z block) :
  fresh ({[NULL]} ∪ dom h) ≠ NULL ∧ h !! fresh ({[NULL]} ∪ dom h) = None.
Proof.
  pose proof (is_fresh ({[NULL]} ∪ dom h)) as Hfr.
  split; [set_solver|]. apply not_elem_of_dom. set_solver.
Qed.

Lemma double_match_allocates : match_allocates (λ e : nat, e = 1%nat) 0.
Proof.
  intros view e h ->. cbn.
  set (xs := if decide (view = Some "trigger") then [7] else []).
  set (buf := fresh ({[NULL]} ∪ dom h)).
  set (h1 := <[buf := BInts xs]> h).
  set (p := fresh ({[NULL]} ∪ dom h1)).
  destruct (malloc_fresh h) as [Hb Hbf].
  destruct (malloc_fresh h1) as [Hp Hpf]. fold buf in Hb, Hbf. fold p in Hp, Hpf.
  apply lookup_insert_None in Hpf as [Hpf Hne].
  exists p, 1%nat, (Z.of_nat (length xs)), buf, xs.
  split_and!; done.
Qed.

Lemma double_metadata_allocates :
  metadata_allocates (λ e : nat, e = 1%nat) 0 7 1.
Proof.
  intros e h ->. cbn.
  set (q1 := fresh ({[NULL]} ∪ dom h)).
  set (h1 := <[q1 := BChars (c_bytes "severity")]> h).
  set (q2 := fresh ({[NULL]} ∪ dom h1)).
  set (h2 := <[q2 := BChars (c_bytes "high")]> h1).
  set (arr := fresh ({[NULL]} ∪ dom h2)).
  set (h3 := <[arr := BPtrs [q1; q2]]> h2).
  set (p := fresh ({[NULL]} ∪ dom h3)).
  set (h4 := <[p := BMetadata 1 arr]> h3).
  destruct (malloc_fresh h) as [Hq1 Hq1f].
  destruct (malloc_fresh h1) as [Hq2 Hq2f].
  destruct (malloc_fresh h2) as [Harr Harrf].
  destruct (malloc_fresh h3) as [Hp Hpf].
  fold q1 in Hq1, Hq1f. fold q2 in Hq2, Hq2f.
  fold arr in Harr, Harrf. fold p in Hp, Hpf.
  apply lookup_insert_None in Hq2f as [Hq2f H21].
  apply lookup_insert_None in Harrf as [Harrf Ha2].
  apply lookup_insert_None in Harrf as [Harrf Ha1].
  apply lookup_insert_None in Hpf as [Hpf Hpa].
  apply lookup_insert_None in Hpf as [Hpf Hp2].
  apply lookup_insert_None in Hpf as [Hpf Hp1].
  exists p, 1%nat, h4, 1, arr, [q1; q2], [("severity", "high")].
  split_and!; try done.
  - split_and!; try done.
    + apply lookup_insert_eq.
    + subst h4 h3. rewrite lookup_insert_ne by done. apply lookup_insert_eq.
    + cbn. unfold c_str_at. rewrite !decide_False by done.
      subst h4 h3 h2 h1.
      rewrite (lookup_insert_ne _ p q1), (lookup_insert_ne _ arr q1),
        (lookup_insert_ne _ q2 q1), lookup_insert_eq by done.
      rewrite (lookup_insert_ne _ p q2), (lookup_insert_ne _ arr q2),
        lookup_insert_eq by done.
      done.
    + repeat (apply NoDup_cons; split;
                [repeat (apply not_elem_of_cons; split; [congruence|]);
                 apply not_elem_of_nil|]).
      apply NoDup_nil_2.
  - subst h4 h3 h2 h1. cbn. apply map_eq. intros k.
    rewrite !lookup_delete, !lookup_insert.
    repeat case_decide; subst; congruence.
Qed.

Lemma Match_touches_only_its_result_witness :
  ∃ r st',
    Java_com_atlasgurus_rulestone_Rulestone_Match 0 (JStr "trigger") ready
    = Ok (JRef r) st' ∧
    (∀ q, q ≠ 2 → q ≠ 1 → heap st' !! q = heap_match_7 !! q) ∧
    jheap ready !! r = None ∧
    (∀ r', r' ≠ r → jheap st' !! r' = jheap ready !! r') ∧
    views st' = views ready ∧
    engine st' = 1%nat.
Proof.
  apply (Match_touches_only_its_result ready 0 "trigger" 2 1%nat
           heap_match_7 1 1 [7]).
  - reflexivity.
  - reflexivity.
  - exact wf_match_7.
Defined.

Lemma Match_calls_leave_no_native_block_witness :
  ∃ st',
    repeat_calls 3
      (Java_com_atlasgurus_rulestone_Rulestone_Match 0 (JStr "trigger"))
      ready
    = Ok tt st' ∧
    heap st' = heap ready ∧
    views st' = views ready ∧
    size (jheap st') = (size (jheap ready) + 3)%nat ∧
    engine st' = 1%nat ∧ oracle st' = [].
Proof.
  apply (Match_calls_leave_no_native_block (λ e : nat, e = 1%nat) 0
           "trigger" 3 double_match_allocates ready).
  - reflexivity.
  - reflexivity.
Defined.

Lemma GetRuleMetadata_touches_only_its_result_witness :
  ∃ res st',
    Java_com_atlasgurus_rulestone_Rulestone_GetRuleMetadata 1 0 7
      ready_failing
    = Ok res st' ∧
    (∀ q, q ∉ [1; 2] → q ≠ 3 → heap st' !! q = heap_metadata_7 !! q) ∧
    (∀ r', is_Some (jheap ready_failing !! r') →
           jheap st' !! r' = jheap ready_failing !! r') ∧
    views st' = views ready_failing ∧
    engine st' = 1%nat.
Proof.
  apply (GetRuleMetadata_touches_only_its_result ready_failing 1 0 7 4 1%nat
           heap_metadata_7 1 3 [1; 2] [("severity", "high")]).
  - reflexivity.
  - exact wf_metadata_7.
  - reflexivity.
  - cbn. lia.
Defined.

Lemma GetRuleMetadata_calls_leave_one_header_each_witness :
  ∃ st',
    repeat_calls 3
      (Java_com_atlasgurus_rulestone_Rulestone_GetRuleMetadata 1 0 7) ready
    = Ok tt st' ∧
    outstanding st' = (outstanding ready + 3)%nat ∧
    views st' = views ready ∧
    engine st' = 1%nat ∧ oracle st' = [].
Proof.
  apply (GetRuleMetadata_calls_leave_one_header_each (λ e : nat, e = 1%nat)
           0 7 1 3 double_metadata_allocates ready).
  - reflexivity.
  - reflexivity.
Defined.

Lemma Match_unallocated_array_faults_witness :
  ∃ st',
    Java_com_atlasgurus_rulestone_Rulestone_Match 0 (JStr "trigger")
      ready_failing
    = Fault JniMisuse st' ∧
    heap st' = heap_match_7 ∧
    frees (trace st') = frees (trace ready_failing).
Proof.
  apply (Match_unallocated_array_faults ready_failing 0 "trigger" 2 1%nat
           heap_match_7 1 1).
  - reflexivity.
  - done.
  - reflexivity.
  - right. unfold array_allocated. cbn. discriminate.
Defined.

Lemma GetRuleMetadata_null_result_raises_witness :
  ∃ res st',
    Java_com_atlasgurus_rulestone_Rulestone_GetRuleMetadata 1 0 7
      ready_no_record
    = Ok res st' ∧
    (res = JNull → pending st' = true) ∧
    (res ≠ JNull → ∃ m, metadata_view st' res = Some m) ∧
    (pending ready_no_record = true → pending st' = true).
Proof.
  apply (GetRuleMetadata_null_result_raises ready_no_record 1 0 7 4 1%nat
           heap_metadata_7 1 3 [1; 2] [("severity", "high")]).
  - reflexivity.
  - exact wf_metadata_7.
  - reflexivity.
  - cbn. lia.
Defined.


Lemma GetRuleMetadata_empty_without_map_witness :
  ∃ res st',
    Java_com_atlasgurus_rulestone_Rulestone_GetRuleMetadata 1 0 8
      ready_no_object
    = Ok res st' ∧
    heap st' = delete 1 heap_metadata_8 ∧
    pending st' = true ∧
    match res with
    | JRef r => jheap st' !! r = Some (JRuleMetadata JNull)
    | _ => res = JNull
    end.
Proof.
  apply (GetRuleMetadata_empty_without_map ready_no_object 1 0 8 2 1%nat
           heap_metadata_8 1).
  - reflexivity.
  - exact wf_metadata_8.
  - reflexivity.
Defined.

Lemma GetRuleMetadata_shared_string_faults_witness :
  ∃ st',
    Java_com_atlasgurus_rulestone_Rulestone_GetRuleMetadata 1 0 0
      sharing_ready
    = Fault InvalidFree st' ∧
    heap st' = delete 1 heap_sharing ∧
    frees (trace st') = frees (trace sharing_ready) ++ [1; 1].
Proof.
  apply (GetRuleMetadata_shared_string_faults sharing_ready 0 0 0 3 tt
           heap_sharing 2 1 (c_bytes "x") "x").
  - reflexivity.
  - done.
  - reflexivity.
  - done.
  - reflexivity.
  - done.
  - reflexivity.
  - reflexivity.
  - done.
  - done.
  - reflexivity.
Defined.

Lemma GetRuleMetadata_nonpositive_size_witness :
  ∃ r st',
    Java_com_atlasgurus_rulestone_Rulestone_GetRuleMetadata 0 0 8 ready
    = Ok (JRef r) st' ∧
    metadata_view st' (JRef r) = Some ∅ ∧
    heap st' = delete 1 heap_metadata_8 ∧
    trace st' =
      trace ready ++
      [EvNativeCall "GetRuleMetadata"; EvNewObject HashMap_class;
       EvFree 1; EvNewObject RuleMetadata_class].
Proof.
  apply (GetRuleMetadata_nonpositive_size ready 0 0 8 2 1%nat
           heap_metadata_8 0 1 (BPtrs [])).
  - reflexivity.
  - done.
  - reflexivity.
  - lia.
  - done.
  - done.
  - reflexivity.
  - reflexivity.
Defined.
